(** * Room session and signaling coordinator (server.js)

    A shallow embedding of the socket handlers of [server.js] and of the
    SQLite statements they issue, together with the properties of the
    room coordinator and of the reclamation sweeper.

    - The four tables are lists of rows in rowid order.
    - Every SQL statement of the file is one constructor of [query];
      [exec_query] gives its effect on the tables and its answer.
    - A handler is a tree of synchronous JavaScript effects and [await]
      points ([Async]); one scheduler step executes the awaited statement
      and runs the handler up to its next [await], so that handlers of
      different connections interleave exactly at their awaits. *)

From Stdlib Require Import ZArith String Ascii List Bool Lia.
From stdpp Require Import base decidable option list sorting gmap strings fin_maps.

Import ListNotations.
Local Open Scope string_scope.
Local Open Scope Z_scope.
#[local] Set Warnings "-clear-no-such-hyp".

(** ** The persisted schema *)

(** [rooms (id TEXT PRIMARY KEY, code TEXT UNIQUE, created_at DATETIME)]. *)
Record Room := mkRoom {
  room_id : string;
  room_code : string;
  room_created_at : Z
}.

(** [users (id TEXT PRIMARY KEY, room_code, username, socket_id, joined_at,
    is_online INTEGER DEFAULT 1, last_seen)].  Datetimes are seconds of the
    store clock: [CURRENT_TIMESTAMP] and [datetime()] print them in one
    fixed-width format, whose text order is the order of the numbers. *)
Record User := mkUser {
  user_id : string;
  user_room_code : string;
  user_username : string;
  user_socket_id : string;
  user_joined_at : Z;
  user_is_online : Z;
  user_last_seen : Z
}.

(** [messages (id INTEGER PRIMARY KEY AUTOINCREMENT, room_code, user_id,
    username, message, message_type DEFAULT 'text', created_at)].  The
    [username] bound by [send-message] is [socket.username], which a socket
    that never joined leaves undefined (stored as NULL). *)
Record Message := mkMessage {
  msg_id : Z;
  msg_room_code : string;
  msg_user_id : string;
  msg_username : option string;
  msg_message : string;
  msg_message_type : string;
  msg_created_at : Z
}.

(** [calls (id INTEGER PRIMARY KEY AUTOINCREMENT, room_code, call_type,
    initiator_id, initiator_name, status DEFAULT 'active', started_at,
    ended_at)]. *)
Record Call := mkCall {
  call_id : Z;
  call_room_code : string;
  call_call_type : string;
  call_initiator_id : option string;
  call_initiator_name : option string;
  call_status : string;
  call_started_at : Z;
  call_ended_at : option Z
}.

(** The database file: the four tables and the two [sqlite_sequence]
    counters kept for the AUTOINCREMENT keys. *)
Record Store := mkStore {
  rooms : list Room;
  users : list User;
  messages : list Message;
  calls : list Call;
  seq_messages : Z;
  seq_calls : Z
}.

Definition set_rooms (v : list Room) (db : Store) : Store :=
  mkStore v (users db) (messages db) (calls db) (seq_messages db) (seq_calls db).
Definition set_users (v : list User) (db : Store) : Store :=
  mkStore (rooms db) v (messages db) (calls db) (seq_messages db) (seq_calls db).
Definition set_calls (v : list Call) (db : Store) : Store :=
  mkStore (rooms db) (users db) (messages db) v (seq_messages db) (seq_calls db).

(** ** Rows returned by the three snapshot queries *)

(** [SELECT id, username, is_online, last_seen FROM users ...]. *)
Record UserRow := mkUserRow {
  ur_id : string;
  ur_username : string;
  ur_is_online : Z;
  ur_last_seen : Z
}.

(** A row of [SELECT m.*, u.username FROM messages m LEFT JOIN users u ...]
    as the handler gets it: an object with one property per column name. *)
Record MessageRow := mkMessageRow {
  mr_id : Z;
  mr_room_code : string;
  mr_user_id : string;
  mr_message : string;
  mr_message_type : string;
  mr_created_at : Z;
  mr_username : option string
}.

(** [{ id: this.lastID, changes: this.changes }] as resolved by [dbRun].
    [run_id] is given for the AUTOINCREMENT tables, whose key the handlers
    read; for the other statements it is reported as 0. *)
Record RunResult := mkRun { run_id : Z; run_changes : Z }.

(** What makes a promise of [dbGet], [dbAll] or [dbRun] reject, and the one
    error the handlers throw themselves. *)
Inductive Err :=
| SqliteConstraint
| SqliteFailure
| NotInRoom.

(** ** The SQL statements of the file *)

Inductive query :=
| SelectRoom (code : string)
| InsertRoom (id code : string)
| SelectUser (roomCode username : string)
| UpdateUserOnline (socketId userId : string)
| InsertUser (id roomCode username socketId : string)
| SelectRoomUsers (roomCode : string)
| SelectRoomMessages (roomCode : string)
| SelectCallHistory (roomCode : string)
| InsertMessage (roomCode userId : string) (username : option string)
                (message messageType : string)
| UpdateCallsEnded (roomCode : string)
| InsertCall (roomCode callType : string) (initiatorId initiatorName : option string)
| UpdateUserOffline (socketId : string)
| CountOnline (roomCode : option string)
| DeleteInactiveUsers.

Definition answer (q : query) : Type :=
  match q with
  | SelectRoom _ => option Room
  | SelectUser _ _ => option User
  | SelectRoomUsers _ => list UserRow
  | SelectRoomMessages _ => list MessageRow
  | SelectCallHistory _ => list Call
  | CountOnline _ => list Z
  | _ => RunResult
  end.

Definition streq (a b : string) : bool := bool_decide (a = b).

(** *** Orders of the ORDER BY clauses *)

(** [ORDER BY is_online DESC, username ASC]; text compares by character
    code (the BINARY collation). *)
Definition users_order (a b : UserRow) : Prop :=
  ur_is_online b < ur_is_online a \/
  (ur_is_online a = ur_is_online b /\
   String.leb (ur_username a) (ur_username b) = true).

(** [ORDER BY m.created_at ASC]. *)
Definition messages_order (a b : MessageRow) : Prop :=
  mr_created_at a <= mr_created_at b.

(** [ORDER BY started_at DESC]. *)
Definition calls_order (a b : Call) : Prop :=
  call_started_at b <= call_started_at a.

#[global] Instance users_order_dec a b : Decision (users_order a b).
Proof. unfold users_order. apply _. Defined.
#[global] Instance messages_order_dec a b : Decision (messages_order a b).
Proof. unfold messages_order. apply _. Defined.
#[global] Instance calls_order_dec a b : Decision (calls_order a b).
Proof. unfold calls_order. apply _. Defined.

(** *** Row sources of the snapshot queries *)

Definition user_row (u : User) : UserRow :=
  mkUserRow (user_id u) (user_username u) (user_is_online u) (user_last_seen u).

(** A column value of a result row. *)
Inductive Value :=
| VInteger (z : Z)
| VText (s : string)
| VNull.

Definition text_or_null (v : option string) : Value :=
  match v with
  | Some s => VText s
  | None => VNull
  end.

(** The columns of one result row of [SELECT m.*, u.username ...], in the
    order of the statement: the seven columns of the message row, then the
    username of the joined user row, NULL when the LEFT JOIN found none. *)
Definition history_columns (m : Message) (u : option User) : list (string * Value) :=
  [("id", VInteger (msg_id m));
   ("room_code", VText (msg_room_code m));
   ("user_id", VText (msg_user_id m));
   ("username", text_or_null (msg_username m));
   ("message", VText (msg_message m));
   ("message_type", VText (msg_message_type m));
   ("created_at", VInteger (msg_created_at m));
   ("username", text_or_null (user_username <$> u))].

(** The driver builds the row object by assigning the columns one after
    the other, so that of two columns with the same name the later one is
    what the property holds. *)
Definition row_object (cols : list (string * Value)) : gmap string Value :=
  fold_left (fun o c => <[c.1 := c.2]> o) cols ∅.

Definition as_integer (v : option Value) : Z :=
  match v with
  | Some (VInteger z) => z
  | _ => 0
  end.
Definition as_text (v : option Value) : string :=
  match v with
  | Some (VText s) => s
  | _ => ""
  end.
Definition as_nullable (v : option Value) : option string :=
  match v with
  | Some (VText s) => Some s
  | _ => None
  end.

Definition message_row (m : Message) (u : option User) : MessageRow :=
  let o := row_object (history_columns m u) in
  mkMessageRow (as_integer (o !! "id")) (as_text (o !! "room_code"))
               (as_text (o !! "user_id")) (as_text (o !! "message"))
               (as_text (o !! "message_type")) (as_integer (o !! "created_at"))
               (as_nullable (o !! "username")).

(** [m LEFT JOIN users u ON m.user_id = u.id]: one row per matching user,
    and one row with a NULL user when none matches. *)
Definition left_join_users (us : list User) (m : Message) : list MessageRow :=
  match filter (fun u => user_id u = msg_user_id m) us with
  | [] => [message_row m None]
  | matched => map (fun u => message_row m (Some u)) matched
  end.

Definition select_room_users (roomCode : string) (db : Store) : list UserRow :=
  merge_sort users_order
    (map user_row (filter (fun u => user_room_code u = roomCode) (users db))).

Definition select_room_messages (roomCode : string) (db : Store) : list MessageRow :=
  merge_sort messages_order
    (flat_map (left_join_users (users db))
       (filter (fun m => msg_room_code m = roomCode) (messages db))).

Definition select_call_history (roomCode : string) (db : Store) : list Call :=
  take 10 (merge_sort calls_order
             (filter (fun c => call_room_code c = roomCode) (calls db))).

(** *** Row updates *)

Definition set_online (socketId : string) (now : Z) (u : User) : User :=
  mkUser (user_id u) (user_room_code u) (user_username u) socketId
         (user_joined_at u) 1 now.

Definition set_offline (now : Z) (u : User) : User :=
  mkUser (user_id u) (user_room_code u) (user_username u) (user_socket_id u)
         (user_joined_at u) 0 now.

Definition set_ended (now : Z) (c : Call) : Call :=
  mkCall (call_id c) (call_room_code c) (call_call_type c) (call_initiator_id c)
         (call_initiator_name c) "ended" (call_started_at c) (Some now).

(** [UPDATE t SET ... WHERE p]: the rows satisfying [p] are rewritten in
    place. *)
Definition update_where {A} (p : A -> bool) (f : A -> A) (l : list A) : list A :=
  map (fun x => if p x then f x else x) l.

Definition count_where {A} (p : A -> bool) (l : list A) : Z :=
  Z.of_nat (length (List.filter p l)).

(** The row the sweeper deletes: [is_online = 0 AND last_seen <
    datetime("now", "-1 hour")]. *)
Definition inactive (now : Z) (u : User) : bool :=
  (user_is_online u =? 0) && (user_last_seen u <? now - 3600).

Definition ok {q : query} (db : Store) (a : answer q) : Store * (Err + answer q) :=
  (db, inr a).

Definition rejected {q : query} (db : Store) (e : Err) : Store * (Err + answer q) :=
  (db, inl e).

(** ** Executing a statement at store time [now] *)

Definition exec_query (now : Z) (q : query) (db : Store)
  : Store * (Err + answer q) :=
  match q return Store * (Err + answer q) with
  | SelectRoom code =>
      ok (q := SelectRoom code) db
         (List.find (fun r => streq (room_code r) code) (rooms db))
  | InsertRoom id code =>
      if existsb (fun r => streq (room_id r) id || streq (room_code r) code) (rooms db)
      then rejected db SqliteConstraint
      else ok (q := InsertRoom id code)
              (set_rooms (rooms db ++ [mkRoom id code now]) db) (mkRun 0 1)
  | SelectUser roomCode username =>
      ok (q := SelectUser roomCode username) db
         (List.find (fun u => streq (user_room_code u) roomCode
                              && streq (user_username u) username) (users db))
  | UpdateUserOnline socketId userId =>
      let p := fun u => streq (user_id u) userId in
      ok (q := UpdateUserOnline socketId userId)
         (set_users (update_where p (set_online socketId now) (users db)) db)
         (mkRun 0 (count_where p (users db)))
  | InsertUser id roomCode username socketId =>
      if existsb (fun u => streq (user_id u) id) (users db)
      then rejected db SqliteConstraint
      else ok (q := InsertUser id roomCode username socketId)
              (set_users (users db ++ [mkUser id roomCode username socketId now 1 now]) db)
              (mkRun 0 1)
  | SelectRoomUsers roomCode =>
      ok (q := SelectRoomUsers roomCode) db (select_room_users roomCode db)
  | SelectRoomMessages roomCode =>
      ok (q := SelectRoomMessages roomCode) db (select_room_messages roomCode db)
  | SelectCallHistory roomCode =>
      ok (q := SelectCallHistory roomCode) db (select_call_history roomCode db)
  | InsertMessage roomCode userId username message messageType =>
      let id := seq_messages db + 1 in
      ok (q := InsertMessage roomCode userId username message messageType)
         (mkStore (rooms db) (users db)
                  (messages db ++
                     [mkMessage id roomCode userId username message messageType now])
                  (calls db) id (seq_calls db))
         (mkRun id 1)
  | UpdateCallsEnded roomCode =>
      let p := fun c => streq (call_room_code c) roomCode
                        && streq (call_status c) "active" in
      ok (q := UpdateCallsEnded roomCode)
         (set_calls (update_where p (set_ended now) (calls db)) db)
         (mkRun 0 (count_where p (calls db)))
  | InsertCall roomCode callType initiatorId initiatorName =>
      let id := seq_calls db + 1 in
      ok (q := InsertCall roomCode callType initiatorId initiatorName)
         (mkStore (rooms db) (users db) (messages db)
                  (calls db ++
                     [mkCall id roomCode callType initiatorId initiatorName
                             "active" now None])
                  (seq_messages db) id)
         (mkRun id 1)
  | UpdateUserOffline socketId =>
      let p := fun u => streq (user_socket_id u) socketId in
      ok (q := UpdateUserOffline socketId)
         (set_users (update_where p (set_offline now) (users db)) db)
         (mkRun 0 (count_where p (users db)))
  | CountOnline roomCode =>
      ok (q := CountOnline roomCode) db
         [count_where (fun u => bool_decide (Some (user_room_code u) = roomCode)
                                && (user_is_online u =? 1)) (users db)]
  | DeleteInactiveUsers =>
      ok (q := DeleteInactiveUsers)
         (set_users (List.filter (fun u => negb (inactive now u)) (users db)) db)
         (mkRun 0 (count_where (inactive now) (users db)))
  end.

(** ** Connections, transport rooms and the in-memory maps *)

(** What the handlers keep on a [socket]: the transport rooms it joined
    ([socket.join]) and the three properties [join-room] sets on it, which
    are undefined until then. *)
Record Socket := mkSocket {
  joined : gset string;
  roomCode : option string;
  userId : option string;
  username : option string
}.

(** A member as listed in [room-joined] and, without [lastSeen], in
    [user-joined]. *)
Record Member := mkMember {
  member_id : string;
  member_username : string;
  member_isOnline : Z;
  member_lastSeen : option Z
}.

Definition member_full (u : UserRow) : Member :=
  mkMember (ur_id u) (ur_username u) (ur_is_online u) (Some (ur_last_seen u)).
Definition member_brief (u : UserRow) : Member :=
  mkMember (ur_id u) (ur_username u) (ur_is_online u) None.

(** The events the server emits, with their payloads. *)
Inductive Outbound :=
| RoomJoined (roomCode userId : string) (users : list Member)
             (messages : list MessageRow) (callHistory : list Call)
| UserJoined (userId username : string) (users : list Member)
| NewMessage (id : Z) (user_id username : option string)
             (message message_type : string) (created_at : Z)
| ErrorNotice (message : string)
| UserTypingStart (userId username : option string)
| UserTypingStop (userId : option string)
| OfferOut (offer : string) (from username : option string) (callType : string)
| AnswerOut (answer : string) (from : option string)
| IceCandidateOut (candidate : string) (from : option string)
| CallEnded (from username : option string)
| UserLeft (userId username : option string)
| Pong.

Inductive LogLine :=
| LogConnected (socketId : string)
| LogJoined (username roomCode : string)
| LogLeft (username roomCode : option string)
| LogCleaned (changes : Z)
| LogError (context : string) (error : Err).

(** An entry of [activeCalls]. *)
Record ActiveCall := mkActiveCall {
  ac_callType : string;
  ac_initiator : option string
}.

(** The state of the process outside the database: the live sockets, the
    [activeCalls] map, every event emitted so far with the connection it
    was sent to, and the console. *)
Record Mem := mkMem {
  sockets : gmap string Socket;
  activeCalls : gmap string ActiveCall;
  outbox : list (string * Outbound);
  console : list LogLine
}.

Definition new_socket (sid : string) : Socket :=
  mkSocket {[ sid ]} None None None.

Definition the_socket (sid : string) (m : Mem) : Socket :=
  default (mkSocket ∅ None None None) (sockets m !! sid).

Definition set_sockets (v : gmap string Socket) (m : Mem) : Mem :=
  mkMem v (activeCalls m) (outbox m) (console m).
Definition set_activeCalls (v : gmap string ActiveCall) (m : Mem) : Mem :=
  mkMem (sockets m) v (outbox m) (console m).
Definition deliver (ds : list (string * Outbound)) (m : Mem) : Mem :=
  mkMem (sockets m) (activeCalls m) (outbox m ++ ds) (console m).
Definition log (l : LogLine) (m : Mem) : Mem :=
  mkMem (sockets m) (activeCalls m) (outbox m) (console m ++ [l]).

(** The connections a transport room holds. *)
Definition in_room (room : string) (m : Mem) : list string :=
  (map_to_list (filter (fun p => room ∈ joined p.2) (sockets m))).*1.

(** [io.to(room)]: everyone in the room.  [socket.to(room)]: everyone in
    the room but the socket itself.  The room is whatever [socket.roomCode]
    holds; nobody is in the room [undefined]. *)
Definition everyone (room : option string) (m : Mem) : list string :=
  match room with
  | Some r => in_room r m
  | None => []
  end.
Definition others (sid : string) (room : option string) (m : Mem) : list string :=
  filter (fun x => x ≠ sid) (everyone room m).

Definition emit_to (audience : list string) (ev : Outbound) (m : Mem) : Mem :=
  deliver (map (fun sid => (sid, ev)) audience) m.

(** JavaScript truthiness of a property holding a string or undefined. *)
Definition truthy (v : option string) : bool :=
  match v with
  | Some s => negb (streq s "")
  | None => false
  end.

(** ** Asynchronous handlers *)

(** The body of an [async] function: synchronous reads and writes of the
    process state, calls of [uuidv4()] and [new Date()], and awaited
    database promises, which resolve with the statement's answer or reject
    into [h]. *)
Inductive Async (A : Type) : Type :=
| Ret (a : A)
| Throw (e : Err)
| Get (k : Mem -> Async A)
| Upd (f : Mem -> Mem) (k : Async A)
| Uuid (k : string -> Async A)
| Date (k : Z -> Async A)
| Await (q : query) (k : answer q -> Async A) (h : Err -> Async A).

Arguments Ret {A} a.
Arguments Throw {A} e.
Arguments Get {A} k.
Arguments Upd {A} f k.
Arguments Uuid {A} k.
Arguments Date {A} k.
Arguments Await {A} q k h.

Fixpoint bind {A B} (t : Async A) (f : A -> Async B) : Async B :=
  match t with
  | Ret a => f a
  | Throw e => Throw e
  | Get k => Get (fun m => bind (k m) f)
  | Upd g k => Upd g (bind k f)
  | Uuid k => Uuid (fun u => bind (k u) f)
  | Date k => Date (fun d => bind (k d) f)
  | Await q k h => Await q (fun a => bind (k a) f) (fun e => bind (h e) f)
  end.

(** [try { t } catch (error) { h error }]. *)
Fixpoint try_catch {A} (t : Async A) (handle : Err -> Async A) : Async A :=
  match t with
  | Ret a => Ret a
  | Throw e => handle e
  | Get k => Get (fun m => try_catch (k m) handle)
  | Upd g k => Upd g (try_catch k handle)
  | Uuid k => Uuid (fun u => try_catch (k u) handle)
  | Date k => Date (fun d => try_catch (k d) handle)
  | Await q k h =>
      Await q (fun a => try_catch (k a) handle) (fun e => try_catch (h e) handle)
  end.

#[global] Instance Async_ret : MRet Async := fun A a => Ret a.
#[global] Instance Async_bind : MBind Async := fun A B f t => bind t f.

(** [await dbGet(..)], [await dbAll(..)], [await dbRun(..)]: the promise
    resolves with the row, the rows or the run result of the statement, or
    rejects with the error of the driver. *)
Definition dbGet (q : query) : Async (answer q) := Await q Ret Throw.
Definition dbAll (q : query) : Async (answer q) := Await q Ret Throw.
Definition dbRun (q : query) : Async (answer q) := Await q Ret Throw.

Definition uuidv4 : Async string := Uuid Ret.
Definition new_Date : Async Z := Date Ret.
Definition this (sid : string) : Async Socket := Get (fun m => Ret (the_socket sid m)).
Definition effect (f : Mem -> Mem) : Async unit := Upd f (Ret tt).
Definition when (b : bool) (t : Async unit) : Async unit := if b then t else Ret tt.

(** [socket.emit], [socket.to(room).emit], [io.to(room).emit]. *)
Definition socket_emit (sid : string) (ev : Outbound) : Async unit :=
  effect (emit_to [sid] ev).
Definition socket_to_emit (sid : string) (room : option string) (ev : Outbound)
  : Async unit :=
  effect (fun m => emit_to (others sid room m) ev m).
Definition io_to_emit (room : option string) (ev : Outbound) : Async unit :=
  effect (fun m => emit_to (everyone room m) ev m).

(** [socket.join(room)]. *)
Definition socket_join (sid room : string) : Async unit :=
  effect (fun m =>
    let s := the_socket sid m in
    set_sockets (<[sid := mkSocket ({[ room ]} ∪ joined s) (roomCode s) (userId s)
                                   (username s)]> (sockets m)) m).

(** [socket.roomCode = ..; socket.userId = ..; socket.username = ..]. *)
Definition set_identity (sid room uid name : string) : Async unit :=
  effect (fun m =>
    let s := the_socket sid m in
    set_sockets (<[sid := mkSocket (joined s) (Some room) (Some uid) (Some name)]>
                   (sockets m)) m).

Definition console_log (l : LogLine) : Async unit := effect (log l).

(** [if (socket.roomCode) { body }], the guard of the relaying handlers. *)
Definition if_roomCode (s : Socket) (body : string -> Async unit) : Async unit :=
  match roomCode s with
  | Some room => when (truthy (Some room)) (body room)
  | None => Ret tt
  end.

(** ** The handlers of [io.on('connection', ...)] *)

Module Handlers.

(** The transport registers the socket in the room of its own id before
    the connection callback runs. *)
Definition connection (sid : string) : Async unit :=
  effect (fun m => set_sockets (<[sid := new_socket sid]> (sockets m)) m);;
  console_log (LogConnected sid).

Definition join_room (sid roomCode username : string) : Async unit :=
  try_catch
    (room ← dbGet (SelectRoom roomCode);
     match room with
     | None => roomId ← uuidv4; dbRun (InsertRoom roomId roomCode);; mret tt
     | Some _ => mret tt
     end;;
     existingUser ← dbGet (SelectUser roomCode username);
     userId ← match existingUser with
              | Some u =>
                  dbRun (UpdateUserOnline sid (user_id u));; mret (user_id u)
              | None =>
                  userId ← uuidv4;
                  dbRun (InsertUser userId roomCode username sid);; mret userId
              end;
     socket_join sid roomCode;;
     set_identity sid roomCode userId username;;
     users ← dbAll (SelectRoomUsers roomCode);
     messages ← dbAll (SelectRoomMessages roomCode);
     callHistory ← dbAll (SelectCallHistory roomCode);
     socket_emit sid
       (RoomJoined roomCode userId (map member_full users) messages callHistory);;
     socket_to_emit sid (Some roomCode)
       (UserJoined userId username (map member_brief users));;
     console_log (LogJoined username roomCode))
    (fun error =>
       console_log (LogError "Error joining room:" error);;
       socket_emit sid (ErrorNotice "Failed to join room")).

Definition send_message (sid message : string) (messageType : option string)
  : Async unit :=
  try_catch
    (let messageType := default "text" messageType in
     s ← this sid;
     match roomCode s, userId s with
     | Some room, Some uid =>
         if truthy (Some room) && truthy (Some uid) then
           result ← dbRun (InsertMessage room uid (username s) message messageType);
           s' ← this sid;
           created_at ← new_Date;
           io_to_emit (roomCode s')
             (NewMessage (run_id result) (userId s') (username s')
                         message messageType created_at)
         else Throw NotInRoom
     | _, _ => Throw NotInRoom
     end)
    (fun error =>
       console_log (LogError "Error sending message:" error);;
       socket_emit sid (ErrorNotice "Failed to send message")).

Definition typing_start (sid : string) : Async unit :=
  s ← this sid;
  if_roomCode s (fun room =>
    socket_to_emit sid (roomCode s) (UserTypingStart (userId s) (username s))).

Definition typing_stop (sid : string) : Async unit :=
  s ← this sid;
  if_roomCode s (fun room =>
    socket_to_emit sid (roomCode s) (UserTypingStop (userId s))).

Definition offer (sid offer callType : string) : Async unit :=
  s ← this sid;
  if_roomCode s (fun room =>
    effect (fun m =>
      set_activeCalls (<[room := mkActiveCall callType (userId s)]> (activeCalls m)) m);;
    socket_to_emit sid (roomCode s)
      (OfferOut offer (userId s) (username s) callType)).

Definition answer (sid answer : string) : Async unit :=
  s ← this sid;
  if_roomCode s (fun room =>
    socket_to_emit sid (roomCode s) (AnswerOut answer (userId s))).

Definition ice_candidate (sid candidate : string) : Async unit :=
  s ← this sid;
  if_roomCode s (fun room =>
    socket_to_emit sid (roomCode s) (IceCandidateOut candidate (userId s))).

(** No [try] here: a rejected update rejects the handler's own promise. *)
Definition end_call (sid : string) : Async unit :=
  s ← this sid;
  if_roomCode s (fun room =>
    effect (fun m => set_activeCalls (delete room (activeCalls m)) m);;
    dbRun (UpdateCallsEnded room);;
    s' ← this sid;
    socket_to_emit sid (roomCode s') (CallEnded (userId s') (username s'))).

Definition call_started (sid callType : string) : Async unit :=
  try_catch
    (s ← this sid;
     if_roomCode s (fun room =>
       dbRun (InsertCall room callType (userId s) (username s));; mret tt))
    (fun error => console_log (LogError "Error logging call:" error)).

(** The transport has taken the socket out of all its rooms when the
    [disconnect] event fires. *)
Definition disconnect (sid : string) : Async unit :=
  effect (fun m =>
    let s := the_socket sid m in
    set_sockets (<[sid := mkSocket ∅ (roomCode s) (userId s) (username s)]>
                   (sockets m)) m);;
  try_catch
    (s ← this sid;
     when (truthy (roomCode s) && truthy (userId s))
       (dbRun (UpdateUserOffline sid);;
        s1 ← this sid;
        remainingUsers ← dbAll (CountOnline (roomCode s1));
        s2 ← this sid;
        socket_to_emit sid (roomCode s2) (UserLeft (userId s2) (username s2));;
        socket_to_emit sid (roomCode s2) (UserTypingStop (userId s2));;
        console_log (LogLeft (username s2) (roomCode s2))))
    (fun error => console_log (LogError "Error handling disconnect:" error)).

Definition ping (sid : string) : Async unit := socket_emit sid Pong.

(** The callback of [setInterval(.., 300000)]. *)
Definition cleanup : Async unit :=
  try_catch
    (result ← dbRun DeleteInactiveUsers;
     when (0 <? run_changes result) (console_log (LogCleaned (run_changes result))))
    (fun error => console_log (LogError "Error cleaning up users:" error)).

End Handlers.

(** ** Running handlers *)

(** What the environment decides for one stretch of a handler between two
    awaits: whether the awaited statement reaches the database at all
    ([env_ok = false]: the driver reports a failure and nothing is
    executed), the store clock when it executes, and what [new Date()] and
    [uuidv4()] return while the stretch runs (no stretch of this program
    calls either more than once). *)
Record Env := mkEnv {
  env_ok : bool;
  env_now : Z;
  env_date : Z;
  env_uuid : string
}.

(** Run the synchronous code of a handler up to its next await or its end. *)
Fixpoint sync {A} (env : Env) (t : Async A) (m : Mem) : Mem * Async A :=
  match t with
  | Get k => sync env (k m) m
  | Upd f k => sync env k (f m)
  | Uuid k => sync env (k (env_uuid env)) m
  | Date k => sync env (k (env_date env)) m
  | _ => (m, t)
  end.

(** A statement a handler has awaited, with the error it was rejected
    with, if any. *)
Definition Ran : Type := query * option Err.

(** Settle the promise a handler is waiting for. *)
Definition settle {A} (env : Env) (t : Async A) (store : Store)
  : Store * list Ran * Async A :=
  match t with
  | Await q k h =>
      if env_ok env then
        match exec_query (env_now env) q store with
        | (store', inr a) => (store', [(q, None)], k a)
        | (store', inl e) => (store', [(q, Some e)], h e)
        end
      else (store, [(q, Some SqliteFailure)], h SqliteFailure)
  | _ => (store, [], t)
  end.

Definition World : Type := Store * Mem.

(** The state of a run: the world, the statements executed so far and what
    is left of the handler. *)
Record Run (A : Type) := mkRunState {
  after : World;
  journal : list Ran;
  rest : Async A
}.
Arguments mkRunState {A} after journal rest.
Arguments after {A} r.
Arguments journal {A} r.
Arguments rest {A} r.

(** One turn of a waiting handler: its statement executes and the handler
    runs on to its next await. *)
Definition step {A} (env : Env) (r : Run A) : Run A :=
  let '(store', ran, t') := settle env (rest r) (after r).1 in
  let '(m', t'') := sync env t' (after r).2 in
  mkRunState (store', m') (journal r ++ ran) t''.

Definition steps {A} (envs : list Env) (r : Run A) : Run A :=
  fold_left (fun r env => step env r) envs r.

(** An event arrives: its handler runs up to its first await. *)
Definition start {A} (env : Env) (t : Async A) (w : World) : Run A :=
  let '(m', t') := sync env t w.2 in
  mkRunState (w.1, m') [] t'.

(** A handler run from its event on with nothing else in between: [env]
    serves the code before the first await, [envs] one turn each after
    that.  A handler that has returned ignores the turns that are left. *)
Definition run {A} (env : Env) (envs : list Env) (t : Async A) (w : World) : Run A :=
  steps envs (start env t w).

Definition finished {A} (t : Async A) : bool :=
  match t with
  | Ret _ | Throw _ => true
  | _ => false
  end.

(** ** The process: events arrive and waiting handlers take turns *)

Inductive Inbound :=
| Connection (sid : string)
| JoinRoom (sid roomCode username : string)
| SendMessage (sid message : string) (messageType : option string)
| TypingStart (sid : string)
| TypingStop (sid : string)
| Offer (sid offer callType : string)
| Answer (sid answer : string)
| IceCandidate (sid candidate : string)
| EndCall (sid : string)
| CallStarted (sid callType : string)
| Disconnect (sid : string)
| Ping (sid : string)
| CleanupTick.

Definition handler (ev : Inbound) : Async unit :=
  match ev with
  | Connection sid => Handlers.connection sid
  | JoinRoom sid roomCode username => Handlers.join_room sid roomCode username
  | SendMessage sid message messageType =>
      Handlers.send_message sid message messageType
  | TypingStart sid => Handlers.typing_start sid
  | TypingStop sid => Handlers.typing_stop sid
  | Offer sid offer callType => Handlers.offer sid offer callType
  | Answer sid answer => Handlers.answer sid answer
  | IceCandidate sid candidate => Handlers.ice_candidate sid candidate
  | EndCall sid => Handlers.end_call sid
  | CallStarted sid callType => Handlers.call_started sid callType
  | Disconnect sid => Handlers.disconnect sid
  | Ping sid => Handlers.ping sid
  | CleanupTick => Handlers.cleanup
  end.

(** The database, the process state and the handlers that are waiting on
    a statement. *)
Record Sys := mkSys {
  sys_world : World;
  waiting : list (Async unit)
}.

(** Either an event arrives and its handler runs up to its first await, or
    the statement of the [i]-th waiting handler completes and that handler
    runs on. *)
Inductive Action :=
| Arrive (ev : Inbound)
| Resume (i : nat).

Definition park (i : option nat) (t : Async unit) (l : list (Async unit))
  : list (Async unit) :=
  match i with
  | None => if finished t then l else l ++ [t]
  | Some i => if finished t then delete i l else <[i := t]> l
  end.

Definition act (s : Sys) (ea : Env * Action) : Sys :=
  match ea.2 with
  | Arrive ev =>
      let r := start ea.1 (handler ev) (sys_world s) in
      mkSys (after r) (park None (rest r) (waiting s))
  | Resume i =>
      match waiting s !! i with
      | Some t =>
          let r := step ea.1 (mkRunState (sys_world s) [] t) in
          mkSys (after r) (park (Some i) (rest r) (waiting s))
      | None => s
      end
  end.

Definition exec (sched : list (Env * Action)) (s : Sys) : Sys :=
  fold_left act sched s.

(** The states the process goes through. *)
Fixpoint trace (sched : list (Env * Action)) (s : Sys) : list Sys :=
  match sched with
  | [] => [s]
  | ea :: sched' => s :: trace sched' (act s ea)
  end.

(** ** Vocabulary of the properties *)

(** The connection has an established presence: [join-room] has put it in
    the transport room [room] and has set the identity the handlers test
    with [socket.roomCode] and [socket.userId]. *)
Definition present (sid room uid : string) (m : Mem) : Prop :=
  exists s, sockets m !! sid = Some s /\ roomCode s = Some room /\
            userId s = Some uid /\ room <> "" /\ uid <> "" /\ room ∈ joined s.

(** The socket of [sid] once [join-room] has registered it in [room] as
    [uid], [name]. *)
Definition registered (sid room uid name : string) (m : Mem) : gmap string Socket :=
  <[sid := mkSocket ({[ room ]} ∪ joined (the_socket sid m))
                    (Some room) (Some uid) (Some name)]> (sockets m).

(** What a run has emitted: the deliveries added to the outbox of [w]. *)
Definition sent_by {A} (r : Run A) (w : World) : list (string * Outbound) :=
  drop (length (outbox w.2)) (outbox (after r).2).

Definition is_new_message (ev : Outbound) : bool :=
  match ev with
  | NewMessage _ _ _ _ _ _ => true
  | _ => false
  end.

Definition succeeded (x : Ran) : Prop := x.2 = None.

(** The statements of [join-room] that come before the registration of
    the socket, and the three that read the snapshot after it. *)
Definition is_snapshot_query (q : query) : bool :=
  match q with
  | SelectRoomUsers _ | SelectRoomMessages _ | SelectCallHistory _ => true
  | _ => false
  end.

(** The rows [join-room] looks up first. *)
Definition find_room (rc : string) (store : Store) : option Room :=
  List.find (fun r => streq (room_code r) rc) (rooms store).

Definition find_user (rc un : string) (store : Store) : option User :=
  List.find (fun u => streq (user_room_code u) rc && streq (user_username u) un)
            (users store).

(** Statements executed one after the other, each at its own store time:
    what any handlers do to the database between two moments. *)
Definition exec_all (qs : list (Z * query)) (store : Store) : Store :=
  fold_left (fun s nq => (exec_query nq.1 nq.2 s).1) qs store.

(** The message as stored, without the [username] column that the join
    of the history query replaces. *)
Definition message_of_row (r : MessageRow) : Z * string * string * string * string * Z :=
  (mr_id r, mr_room_code r, mr_user_id r, mr_message r, mr_message_type r,
   mr_created_at r).
Definition message_columns (m : Message) : Z * string * string * string * string * Z :=
  (msg_id m, msg_room_code m, msg_user_id m, msg_message m, msg_message_type m,
   msg_created_at m).

(** The primary key of [users] and the UNIQUE constraint of [rooms.code]
    hold of the table contents. *)
Definition store_wf (store : Store) : Prop :=
  NoDup (map user_id (users store)) /\ NoDup (map room_code (rooms store)).

(** The status of the call row with key [id], if there is one. *)
Definition status_of (id : Z) (store : Store) : option string :=
  call_status <$> List.find (fun c => call_id c =? id) (calls store).

(** How often the status of call [id] goes from [a] to [b] along the
    stores of a history. *)
Fixpoint transitions (a b : string) (id : Z) (l : list Store) : nat :=
  match l with
  | s1 :: ((s2 :: _) as l') =>
      (if bool_decide (status_of id s1 = Some a /\ status_of id s2 = Some b)
       then 1 else 0)%nat + transitions a b id l'
  | _ => 0%nat
  end.

(** The connection whose [socket.roomCode] decides whether the handler of
    the event does anything at all. *)
Definition guarded_by_room (ev : Inbound) : option string :=
  match ev with
  | TypingStart sid | TypingStop sid | Offer sid _ _ | Answer sid _
  | IceCandidate sid _ | EndCall sid | CallStarted sid _ => Some sid
  | _ => None
  end.

(** The keys of the AUTOINCREMENT tables are in ascending order and none
    is above the counter of its table. *)
Definition keys_in_sequence (store : Store) : Prop :=
  (StronglySorted Z.lt (map msg_id (messages store)) /\
   Forall (fun x => msg_id x <= seq_messages store) (messages store)) /\
  (StronglySorted Z.lt (map call_id (calls store)) /\
   Forall (fun c => call_id c <= seq_calls store) (calls store)).

(** A handler that never awaits the sweeper's delete. *)
Fixpoint never_deletes {A} (t : Async A) : Prop :=
  match t with
  | Ret _ | Throw _ => True
  | Get k => forall m, never_deletes (k m)
  | Upd _ k => never_deletes k
  | Uuid k => forall u, never_deletes (k u)
  | Date k => forall d, never_deletes (k d)
  | Await q k h =>
      q <> DeleteInactiveUsers /\
      (forall a, never_deletes (k a)) /\ (forall e, never_deletes (h e))
  end.

(** The stores of a history, in order. *)
Definition stores (sched : list (Env * Action)) (s : Sys) : list Store :=
  map (fun s => (sys_world s).1) (trace sched s).

(** No two user rows have the same room code and username. *)
Definition names_unique (store : Store) : Prop :=
  NoDup (map (fun u => (user_room_code u, user_username u)) (users store)).

(** ** Sample worlds *)

(** Connections A (alice, user "u1") and B (bob, user "u2") are both in
    room "abc". *)
Definition room_abc : Mem :=
  mkMem {[ "A" := mkSocket {[ "A"; "abc" ]} (Some "abc") (Some "u1") (Some "alice");
           "B" := mkSocket {[ "B"; "abc" ]} (Some "abc") (Some "u2") (Some "bob") ]}
        ∅ [] [].

(** The database right after the tables have been created. *)
Definition no_rows : Store := mkStore [] [] [] [] 0 0.

(** A turn at store time [now] seconds, the process clock showing the same
    time in milliseconds. *)
Definition at_time (ok : bool) (now : Z) (uuid : string) : Env :=
  mkEnv ok now (now * 1000) uuid.

(** Connection A alone, connected and not yet in a room. *)
Definition lobby : Mem := mkMem {[ "A" := new_socket "A" ]} ∅ [] [].

(** The turns of a first join of a new room in which everything succeeds
    but the member-list query. *)
Definition member_list_fails : list Env :=
  [at_time true 2 "r1"; at_time true 3 ""; at_time true 4 "u1"; at_time true 5 "";
   at_time false 6 ""; at_time true 7 ""; at_time true 8 ""].

(** Connections A and B join the new room "abc" at the same time: both
    look the room up before either has created it. *)
Definition overlapping_joins : list (Env * Action) :=
  [(at_time true 1 "", Arrive (Connection "A"));
   (at_time true 2 "", Arrive (Connection "B"));
   (at_time true 3 "", Arrive (JoinRoom "A" "abc" "alice"));
   (at_time true 4 "", Arrive (JoinRoom "B" "abc" "bob"));
   (at_time true 5 "r1", Resume 0);
   (at_time true 6 "r2", Resume 1);
   (at_time true 7 "", Resume 0);
   (at_time true 8 "", Resume 1)].

(** The process at start-up. *)
Definition empty_process : Sys := mkSys (no_rows, mkMem ∅ ∅ [] []) [].

(** A store in which room "abc" exists. *)
Definition room_exists : Store :=
  mkStore [mkRoom "r1" "abc" 7] [] [] [] 0 0.

(** Turns in which every statement succeeds; the first join draws the room
    id "r1" and the user id "u1". *)
Definition first_join : list Env :=
  [at_time true 2 "r1"; at_time true 3 ""; at_time true 4 "u1"; at_time true 5 "";
   at_time true 6 ""; at_time true 7 ""; at_time true 8 ""].
(** The turns of a later join, which would draw "r9" and "u9". *)
Definition later_join : list Env :=
  [at_time true 32 "r9"; at_time true 33 "u9"; at_time true 34 ""; at_time true 35 "";
   at_time true 36 ""; at_time true 37 ""; at_time true 38 ""].


(** Alice's row after she has reconnected on connection C. *)
Definition alice_on_C : Store :=
  mkStore [mkRoom "r1" "abc" 3] [mkUser "u1" "abc" "alice" "C" 5 1 34] [] [] 0 0.

(** Two calls of room "abc" are recorded as active; the later one is
    call 2. *)
Definition two_active_calls : Store :=
  mkStore [mkRoom "r1" "abc" 3] [] []
          [mkCall 1 "abc" "video" (Some "u1") (Some "alice") "active" 10 None;
           mkCall 2 "abc" "audio" (Some "u2") (Some "bob") "active" 20 None]
          0 2.

(** Room "abc" with some history: bob and alice are offline, carol is
    online; one message belongs to another room. *)
Definition history_abc : Store :=
  mkStore [mkRoom "r1" "abc" 3]
          [mkUser "u2" "abc" "bob" "B" 4 0 10;
           mkUser "u1" "abc" "alice" "A" 5 0 12;
           mkUser "u3" "abc" "carol" "C" 6 1 14]
          [mkMessage 1 "abc" "u2" (Some "bob") "hello" "text" 8;
           mkMessage 2 "abc" "u1" (Some "alice") "hi" "text" 9;
           mkMessage 3 "xyz" "u7" (Some "dan") "elsewhere" "text" 9]
          [mkCall 1 "abc" "video" (Some "u2") (Some "bob") "ended" 10 (Some 11);
           mkCall 2 "abc" "audio" (Some "u3") (Some "carol") "active" 13 None]
          3 2.

(** Bob's row and his message in [history_abc]. *)
Definition bob_row : User := mkUser "u2" "abc" "bob" "B" 4 0 10.
Definition bob_hello : Message := mkMessage 1 "abc" "u2" (Some "bob") "hello" "text" 8.

(** The call list of every snapshot of room "abc" read from
    [history_abc]. *)
Definition calls_abc : list Call :=
  [mkCall 2 "abc" "audio" (Some "u3") (Some "carol") "active" 13 None;
   mkCall 1 "abc" "video" (Some "u2") (Some "bob") "ended" 10 (Some 11)].

(** What alice is sent when she joins again at store time 34. *)
Definition snapshot_alice : Outbound :=
  RoomJoined "abc" "u1"
    [mkMember "u1" "alice" 1 (Some 34); mkMember "u3" "carol" 1 (Some 14);
     mkMember "u2" "bob" 0 (Some 10)]
    [mkMessageRow 1 "abc" "u2" "hello" "text" 8 (Some "bob");
     mkMessageRow 2 "abc" "u1" "hi" "text" 9 (Some "alice")]
    calls_abc.

(** What dave is sent when he joins after the sweeper has removed the
    rows of bob and alice. *)
Definition snapshot_dave : Outbound :=
  RoomJoined "abc" "u9"
    [mkMember "u3" "carol" 1 (Some 14); mkMember "u9" "dave" 1 (Some 34)]
    [mkMessageRow 1 "abc" "u2" "hello" "text" 8 None;
     mkMessageRow 2 "abc" "u1" "hi" "text" 9 None]
    calls_abc.

(** ** Basic facts *)

Arguments the_socket : simpl never.
Arguments emit_to : simpl never.
Arguments log : simpl never.
Arguments truthy : simpl never.
Arguments set_sockets : simpl never.
Arguments set_activeCalls : simpl never.
Arguments select_room_users : simpl never.
Arguments select_room_messages : simpl never.
Arguments select_call_history : simpl never.
Arguments update_where : simpl never.
Arguments count_where : simpl never.
Arguments steps : simpl never.
Arguments others : simpl never.
Arguments everyone : simpl never.

Section Mem_facts.
Variables (m : Mem) (a : list string) (ev : Outbound) (l : LogLine)
          (ss : gmap string Socket) (cs : gmap string ActiveCall).

Lemma outbox_emit_to :
  outbox (emit_to a ev m) = (outbox m ++ map (fun sid => (sid, ev)) a)%list.
Proof. reflexivity. Qed.
Lemma sockets_emit_to : sockets (emit_to a ev m) = sockets m.
Proof. reflexivity. Qed.
Lemma activeCalls_emit_to : activeCalls (emit_to a ev m) = activeCalls m.
Proof. reflexivity. Qed.
Lemma console_emit_to : console (emit_to a ev m) = console m.
Proof. reflexivity. Qed.

Lemma outbox_log : outbox (log l m) = outbox m.
Proof. reflexivity. Qed.
Lemma sockets_log : sockets (log l m) = sockets m.
Proof. reflexivity. Qed.
Lemma activeCalls_log : activeCalls (log l m) = activeCalls m.
Proof. reflexivity. Qed.
Lemma console_log_eq : console (log l m) = (console m ++ [l])%list.
Proof. reflexivity. Qed.

Lemma outbox_set_sockets : outbox (set_sockets ss m) = outbox m.
Proof. reflexivity. Qed.
Lemma sockets_set_sockets : sockets (set_sockets ss m) = ss.
Proof. reflexivity. Qed.
Lemma activeCalls_set_sockets : activeCalls (set_sockets ss m) = activeCalls m.
Proof. reflexivity. Qed.
Lemma console_set_sockets : console (set_sockets ss m) = console m.
Proof. reflexivity. Qed.

Lemma outbox_set_activeCalls : outbox (set_activeCalls cs m) = outbox m.
Proof. reflexivity. Qed.
Lemma sockets_set_activeCalls : sockets (set_activeCalls cs m) = sockets m.
Proof. reflexivity. Qed.
Lemma activeCalls_set_activeCalls : activeCalls (set_activeCalls cs m) = cs.
Proof. reflexivity. Qed.
Lemma console_set_activeCalls : console (set_activeCalls cs m) = console m.
Proof. reflexivity. Qed.
End Mem_facts.

Create Rewrite HintDb mem.
#[global] Hint Rewrite
  outbox_emit_to sockets_emit_to activeCalls_emit_to console_emit_to
  outbox_log sockets_log activeCalls_log console_log_eq
  outbox_set_sockets sockets_set_sockets activeCalls_set_sockets console_set_sockets
  outbox_set_activeCalls sockets_set_activeCalls activeCalls_set_activeCalls
  console_set_activeCalls : mem.

Lemma the_socket_lookup sid m s : sockets m !! sid = Some s -> the_socket sid m = s.
Proof. unfold the_socket. by intros ->. Qed.

Lemma the_socket_set_sockets sid ss m :
  the_socket sid (set_sockets ss m) = default (mkSocket ∅ None None None) (ss !! sid).
Proof. reflexivity. Qed.

Lemma the_socket_emit_to sid a ev m : the_socket sid (emit_to a ev m) = the_socket sid m.
Proof. reflexivity. Qed.

Lemma the_socket_log sid l m : the_socket sid (log l m) = the_socket sid m.
Proof. reflexivity. Qed.

Lemma truthy_Some s : s <> "" -> truthy (Some s) = true.
Proof. intros. unfold truthy, streq. by rewrite bool_decide_eq_false_2. Qed.

Lemma truthy_true v : truthy v = true <-> exists s, v = Some s /\ s <> "".
Proof.
  unfold truthy, streq. destruct v as [s|]; [|naive_solver].
  rewrite negb_true_iff, bool_decide_eq_false. naive_solver.
Qed.

Lemma streq_true a b : streq a b = true <-> a = b.
Proof. apply bool_decide_eq_true. Qed.

Lemma streq_false a b : streq a b = false <-> a <> b.
Proof. apply bool_decide_eq_false. Qed.

Lemma streq_refl a : streq a a = true.
Proof. by apply streq_true. Qed.

(** The row object of the history query has the columns of the message
    row, except that its username is the one of the joined user row. *)
Lemma message_row_eq m u :
  message_row m u =
    mkMessageRow (msg_id m) (msg_room_code m) (msg_user_id m) (msg_message m)
                 (msg_message_type m) (msg_created_at m) (user_username <$> u).
Proof. destruct u; reflexivity. Qed.

(** Who is in a transport room. *)
Lemma elem_of_in_room sid room m :
  sid ∈ in_room room m <-> exists s, sockets m !! sid = Some s /\ room ∈ joined s.
Proof.
  unfold in_room. rewrite list_elem_of_fmap. split.
  - intros [[k s] [-> Hks]]. apply elem_of_map_to_list in Hks.
    apply map_lookup_filter_Some in Hks. simpl in *. naive_solver.
  - intros [s [H1 H2]]. exists (sid, s). split; [done|].
    apply elem_of_map_to_list. apply map_lookup_filter_Some. done.
Qed.

Lemma elem_of_others c sid room m :
  c ∈ others sid (Some room) m <-> c <> sid /\ c ∈ in_room room m.
Proof. unfold others, everyone. by rewrite list_elem_of_filter. Qed.

Lemma sent_by_app {A} (r : Run A) (w : World) ds :
  outbox (after r).2 = (outbox w.2 ++ ds)%list -> sent_by r w = ds.
Proof. unfold sent_by. intros ->. by rewrite drop_app_length. Qed.

(** *** Runs, one turn at a time *)

Lemma steps_cons {A} e es (r : Run A) : steps (e :: es) r = steps es (step e r).
Proof. reflexivity. Qed.

Lemma steps_nil {A} (r : Run A) : steps [] r = r.
Proof. reflexivity. Qed.

Lemma steps_app {A} es es' (r : Run A) : steps (es ++ es') r = steps es' (steps es r).
Proof. apply fold_left_app. Qed.

(** A handler that has returned takes no further turn. *)
Lemma step_finished {A} e (r : Run A) : finished (rest r) = true -> step e r = r.
Proof.
  destruct r as [[store m] j t]. cbn.
  destruct t; try discriminate; intros _; unfold step; cbn; by rewrite app_nil_r.
Qed.

Lemma steps_finished {A} es (r : Run A) : finished (rest r) = true -> steps es r = r.
Proof.
  induction es as [|e es IH]; [done|]. intros H.
  by rewrite steps_cons, step_finished, IH.
Qed.

(** Execute the next turn of a run whose state is explicit, splitting on
    what the environment and the tables decide. *)
Ltac turn :=
  rewrite steps_cons; unfold step at 1; cbn;
  repeat match goal with
  | |- context [env_ok ?e] => destruct (env_ok e) eqn:?; cbn
  | |- context [List.find ?p ?l] => destruct (List.find p l) eqn:?; cbn
  | |- context [existsb ?p ?l] => destruct (existsb p l) eqn:?; cbn
  end.

(** Keep one copy of the run in the goal while it is executed: [on_run r]
    hides the property stated of [r], [back] shows it again. *)
Ltac on_run r :=
  pattern r;
  match goal with
  | |- ?P r => let Q := fresh "Goal_of_run" in set (Q := P); subst r
  end.
Ltac back :=
  match goal with
  | Q := _ |- _ => subst Q; cbn beta zeta
  end.

(** A key that is unique in a table selects exactly its row. *)
Lemma filter_unique_key {A} (f : A -> string) (k : string) (l : list A) (x : A) :
  NoDup (map f l) -> In x l -> f x = k -> filter (fun y => f y = k) l = [x].
Proof.
  induction l as [|a l IH]; [intros _ []|].
  intros Hnd Hin Hk. cbn in Hnd. inversion_clear Hnd as [|?? Hnotin Hnd'].
  destruct Hin as [-> | Hin].
  - rewrite filter_cons_True by done. f_equal.
    destruct (filter (fun y => f y = k) l) as [|b l'] eqn:E; [done|].
    exfalso. assert (Hb : b ∈ filter (fun y => f y = k) l) by (rewrite E; left).
    apply list_elem_of_filter in Hb as [HP Hel]. apply Hnotin.
    apply list_elem_of_In, in_map_iff. exists b.
    split; [congruence|]. by apply list_elem_of_In.
  - rewrite filter_cons_False; [by apply IH|].
    intros Ha. apply Hnotin, list_elem_of_In, in_map_iff.
    exists x. split; [congruence|done].
Qed.

(** *** Lookups in updated tables *)

Lemma find_update_where {A} (p q : A -> bool) (f : A -> A) (l : list A) :
  (forall x, p (f x) = p x) ->
  List.find p (update_where q f l) = (fun x => if q x then f x else x) <$> List.find p l.
Proof.
  intros Hp. unfold update_where. induction l as [|a l IH]; [done|]. cbn.
  replace (p (if q a then f a else a)) with (p a) by (destruct (q a); by rewrite ?Hp).
  destruct (p a); [done | apply IH].
Qed.

Lemma find_app_Some {A} (p : A -> bool) (l l' : list A) x :
  List.find p l = Some x -> List.find p (l ++ l') = Some x.
Proof.
  induction l as [|a l IH]; [done|]. cbn. destruct (p a); [done | apply IH].
Qed.


Lemma length_update_where {A} (q : A -> bool) (f : A -> A) (l : list A) :
  length (update_where q f l) = length l.
Proof. apply length_map. Qed.




Lemma lookup_update_where {A} (q : A -> bool) (f : A -> A) (l : list A) (i : nat) :
  update_where q f l !! i = (fun x => if q x then f x else x) <$> l !! i.
Proof. unfold update_where. change (map ?g l) with (g <$> l). apply list_lookup_fmap. Qed.

Lemma map_update_where {A B} (k : A -> B) (q : A -> bool) (f : A -> A) (l : list A) :
  (forall x, k (f x) = k x) -> map k (update_where q f l) = map k l.
Proof.
  intros Hk. unfold update_where. rewrite map_map. apply map_ext.
  intros x. destruct (q x); by rewrite ?Hk.
Qed.

Lemma the_socket_set_activeCalls sid cs m :
  the_socket sid (set_activeCalls cs m) = the_socket sid m.
Proof. reflexivity. Qed.

(** ** What a run of [join-room] does *)

Lemma registered_twice sid rc uid un m :
  <[sid := mkSocket (joined (the_socket sid
             (set_sockets (<[sid := mkSocket ({[ rc ]} ∪ joined (the_socket sid m))
                                     (roomCode (the_socket sid m))
                                     (userId (the_socket sid m))
                                     (username (the_socket sid m))]> (sockets m)) m)))
           (Some rc) (Some uid) (Some un)]>
    (<[sid := mkSocket ({[ rc ]} ∪ joined (the_socket sid m))
                       (roomCode (the_socket sid m)) (userId (the_socket sid m))
                       (username (the_socket sid m))]> (sockets m))
  = registered sid rc uid un m.
Proof.
  unfold registered. rewrite the_socket_set_sockets, lookup_insert_eq. cbn.
  by rewrite insert_insert_eq.
Qed.

Lemma others_sockets sid room m m' :
  sockets m = sockets m' -> others sid room m = others sid room m'.
Proof. unfold others, everyone, in_room. by intros ->. Qed.

(** The complete description of a run of [join-room] that nothing
    interrupts: it ends within seven turns, it leaves messages, calls and
    [activeCalls] alone, and it either goes through, all its statements
    succeeding, or stops at its first rejected statement. *)
Lemma join_room_run sid rc un e0 e1 e2 e3 e4 e5 e6 e7 store m :
  let r := run e0 [e1; e2; e3; e4; e5; e6; e7] (Handlers.join_room sid rc un) (store, m) in
  let S := (after r).1 in
  let M := (after r).2 in
  finished (rest r) = true /\
  messages S = messages store /\ calls S = calls store /\
  seq_messages S = seq_messages store /\ seq_calls S = seq_calls store /\
  activeCalls M = activeCalls m /\
  ((exists uid room_part user_stmt,
      journal r = (room_part ++
                   [(SelectUser rc un, None); (user_stmt, None);
                    (SelectRoomUsers rc, None); (SelectRoomMessages rc, None);
                    (SelectCallHistory rc, None)])%list /\
      ((exists room, find_room rc store = Some room /\ rooms S = rooms store /\
                     room_part = [(SelectRoom rc, None)]) \/
       (exists rid now, find_room rc store = None /\
                        rooms S = (rooms store ++ [mkRoom rid rc now])%list /\
                        room_part = [(SelectRoom rc, None); (InsertRoom rid rc, None)])) /\
      ((exists u now, find_user rc un store = Some u /\ uid = user_id u /\
                      users S = update_where (fun v => streq (user_id v) uid)
                                             (set_online sid now) (users store) /\
                      user_stmt = UpdateUserOnline sid uid) \/
       (exists now, find_user rc un store = None /\
                    existsb (fun v => streq (user_id v) uid) (users store) = false /\
                    users S = (users store ++ [mkUser uid rc un sid now 1 now])%list /\
                    user_stmt = InsertUser uid rc un sid /\
                    In uid [env_uuid e2; env_uuid e3])) /\
      sockets M = registered sid rc uid un m /\
      outbox M =
        (outbox m ++
         (sid, RoomJoined rc uid (map member_full (select_room_users rc S))
                          (select_room_messages rc S) (select_call_history rc S))
         :: map (fun c => (c, UserJoined uid un
                                (map member_brief (select_room_users rc S))))
                (others sid (Some rc) (set_sockets (registered sid rc uid un m) m)))%list)
   \/
   (exists before q e,
      journal r = (before ++ [(q, Some e)])%list /\
      Forall succeeded before /\
      outbox M = (outbox m ++ [(sid, ErrorNotice "Failed to join room")])%list /\
      console M = (console m ++ [LogError "Error joining room:" e])%list /\
      if is_snapshot_query q
      then exists uid, sockets M = registered sid rc uid un m
      else sockets M = sockets m)).
Proof.
  intros r. on_run r.
  unfold run, start, Handlers.join_room. cbn.
  do 7 turn.
  all: rewrite steps_nil; back; cbn [after journal rest fst snd].
  all: autorewrite with mem; try rewrite registered_twice.
  all: (split; [reflexivity|]).
  all: do 5 (split; [reflexivity|]).
  all: unfold find_room, find_user.
  all: first
    [ (* the join went through *)
      left; eexists _, _, _;
      refine (conj _ (conj _ (conj _ (conj _ _))));
      [ | first [ left; eexists; split; [eassumption | split; reflexivity]
                | right; eexists _, _; split; [eassumption | split; reflexivity] ]
        | first [ left; eexists _, _; split; [eassumption |];
                  split; [reflexivity | split; reflexivity]
                | right; eexists; split; [eassumption |];
                  split; [eassumption |]; split; [reflexivity |];
                  split; [reflexivity | cbn; tauto] ]
        | reflexivity
        | rewrite <- app_assoc; f_equal; cbn [map app]; do 2 f_equal;
          apply others_sockets; autorewrite with mem;
          try rewrite registered_twice; reflexivity ];
      reflexivity
    | (* it stopped at a rejected statement *)
      right;
      first [ exists []; eexists _, _; split; [reflexivity |]
            | eexists [_]; eexists _, _; split; [reflexivity |]
            | eexists [_; _]; eexists _, _; split; [reflexivity |]
            | eexists [_; _; _]; eexists _, _; split; [reflexivity |]
            | eexists [_; _; _; _]; eexists _, _; split; [reflexivity |]
            | eexists [_; _; _; _; _]; eexists _, _; split; [reflexivity |]
            | eexists [_; _; _; _; _; _]; eexists _, _; split; [reflexivity |] ];
      (split; [repeat constructor |]);
      (split; [reflexivity |]);
      (split; [reflexivity |]);
      cbn; first [ reflexivity | eexists; reflexivity ] ].
Qed.

Lemma registered_lookup sid rc uid un m :
  registered sid rc uid un m !! sid =
    Some (mkSocket ({[ rc ]} ∪ joined (the_socket sid m)) (Some rc) (Some uid) (Some un)).
Proof. unfold registered. apply lookup_insert_eq. Qed.

(** A join that emitted its snapshot went through, and the snapshot is
    what the three queries return on the final tables. *)
Lemma join_room_snapshot sid rc un e0 e1 e2 e3 e4 e5 e6 e7 store m rc' uid us ms cs :
  let r := run e0 [e1; e2; e3; e4; e5; e6; e7] (Handlers.join_room sid rc un) (store, m) in
  let S := (after r).1 in
  In (sid, RoomJoined rc' uid us ms cs) (sent_by r (store, m)) ->
  rc' = rc /\
  us = map member_full (select_room_users rc S) /\
  ms = select_room_messages rc S /\
  cs = select_call_history rc S /\
  messages S = messages store /\ calls S = calls store /\
  sockets (after r).2 = registered sid rc uid un m /\
  ((exists u now, find_user rc un store = Some u /\ uid = user_id u /\
                  users S = update_where (fun v => streq (user_id v) uid)
                                         (set_online sid now) (users store) /\
                  In (UpdateUserOnline sid uid, None) (journal r) /\
                  forall a b c d o, ~ In (InsertUser a b c d, o) (journal r)) \/
   (exists now, find_user rc un store = None /\
                existsb (fun v => streq (user_id v) uid) (users store) = false /\
                users S = (users store ++ [mkUser uid rc un sid now 1 now])%list /\
                In uid [env_uuid e2; env_uuid e3])).
Proof.
  intros r S.
  pose proof (join_room_run sid rc un e0 e1 e2 e3 e4 e5 e6 e7 store m) as H.
  cbv zeta in H. fold r in H. fold S in H. clearbody r.
  destruct H as (_ & Hm & Hc & _ & _ & _ & [Hok | Hko]).
  - destruct Hok as (uid' & rp & us' & Hj & Hroom & Huser & Hs & Ho).
    rewrite (sent_by_app r (store, m) _ Ho).
    intros [Heq | Hin].
    + injection Heq as <- <- <- <- <-. repeat (split; [done|]).
      destruct Huser as [(u & now & Hf & -> & Hu & ->) | (now & Hf & Hex & Hu & -> & Hid)].
      * left. exists u, now. repeat (split; [done|]). rewrite Hj. split.
        { apply in_or_app. right. cbn. tauto. }
        intros a b c d o Hin. apply in_app_or in Hin as [Hin | Hin].
        { destruct Hroom as [(? & _ & _ & ->) | (? & ? & _ & _ & ->)]; cbn in Hin;
            intuition congruence. }
        cbn in Hin. intuition congruence.
      * right. exists now. done.
    + apply in_map_iff in Hin as (c & Hc' & _). discriminate.
  - destruct Hko as (before & q & e & _ & _ & Ho & _).
    rewrite (sent_by_app r (store, m) _ Ho). intros [Heq | []]. discriminate.
Qed.

(** A join that went through, with a non-empty room code and user id,
    establishes the presence of the connection. *)
Lemma join_establishes_presence sid rc un e0 e1 e2 e3 e4 e5 e6 e7 store m
    rc' uid us ms cs :
  let r := run e0 [e1; e2; e3; e4; e5; e6; e7] (Handlers.join_room sid rc un) (store, m) in
  In (sid, RoomJoined rc' uid us ms cs) (sent_by r (store, m)) ->
  rc <> "" -> uid <> "" ->
  present sid rc uid (after r).2.
Proof.
  intros r Hin Hrc Huid.
  apply join_room_snapshot in Hin as (_ & _ & _ & _ & _ & _ & Hs & _).
  fold r in Hs. clearbody r.
  eexists. rewrite Hs, registered_lookup. split; [done|]. cbn.
  repeat (split; [done|]). set_solver.
Qed.

(** ** Facts about the sample worlds *)

Lemma present_room_abc : present "A" "abc" "u1" room_abc.
Proof.
  eexists. split; [vm_compute; reflexivity|].
  repeat split; try discriminate.
Defined.

Lemma history_abc_wf : store_wf history_abc.
Proof.
  split; cbn.
  - repeat (apply NoDup_cons_2; [set_solver|]). apply NoDup_nil_2.
  - apply NoDup_singleton.
Defined.

(** ** Sending a message *)

(** C1. A [send-message] event of a connection with an established presence
    executes exactly one statement, the insert of the message row.  If the
    insert succeeds the [new-message] notice, with the key the store
    assigned and the server's timestamp, goes to every connection of the
    room, the sender among them; if it is rejected the store is unchanged
    and the only delivery is the error notice to the sender.  Hence some
    connection receives a [new-message] notice exactly when the insert
    succeeded. *)
Theorem send_message_delivery sid message messageType env env1 store m room uid :
  present sid room uid m ->
  let mt := default "text" messageType in
  let name := username (the_socket sid m) in
  let r := run env [env1] (Handlers.send_message sid message messageType) (store, m) in
  finished (rest r) = true /\
  exists err sent,
    journal r = [(InsertMessage room uid name message mt, err)] /\
    outbox (after r).2 = (outbox m ++ sent)%list /\
    ((exists c ev, (c, ev) ∈ sent /\ is_new_message ev = true) <-> err = None) /\
    match err with
    | None =>
        messages (after r).1 =
          (messages store ++
             [mkMessage (seq_messages store + 1) room uid name message mt
                        (env_now env1)])%list /\
        sent = map (fun c => (c, NewMessage (seq_messages store + 1) (Some uid) name
                                            message mt (env_date env1)))
                   (in_room room m) /\
        sid ∈ in_room room m
    | Some _ =>
        (after r).1 = store /\
        sent = [(sid, ErrorNotice "Failed to send message")]
    end.
Proof.
  intros (s & Hs & Hroom & Huid & Hr & Hu & Hin) mt name r.
  assert (Hmem : sid ∈ in_room room m) by (apply elem_of_in_room; eauto).
  subst name. on_run r. unfold run, start, Handlers.send_message. cbn.
  rewrite (the_socket_lookup _ _ _ Hs), Hroom, Huid.
  rewrite !truthy_Some by done. cbn.
  turn; rewrite steps_nil; back; cbn;
    rewrite ?(the_socket_lookup _ _ _ Hs), ?Hroom, ?Huid.
  - split; [done|]. eexists None, _. split; [done|].
    split; [apply outbox_emit_to|]. split; [|done].
    split; [done|]. intros _. eexists sid, _.
    split; [by apply (list_elem_of_fmap_2 (fun c => (c, _))) | reflexivity].
  - split; [done|]. eexists (Some SqliteFailure), _. split; [done|].
    split; [reflexivity|]. split; [|done].
    split; [|done]. intros (c & ev & H & Hev).
    apply list_elem_of_singleton in H. by inversion H; subst.
Qed.

(** The same holds when other handlers run while the insert is in flight:
    whatever world the insert completes in, the notice is emitted, to the
    room the socket is in by then, if the insert succeeded, and otherwise
    the error notice is the only delivery. *)
Lemma send_message_delivery_interleaved
    sid message messageType env env1 store m room uid store' m' :
  present sid room uid m ->
  let mt := default "text" messageType in
  let r0 := start env (Handlers.send_message sid message messageType) (store, m) in
  let r := step env1 (mkRunState (store', m') (journal r0) (rest r0)) in
  let s' := the_socket sid m' in
  after r0 = (store, m) /\ finished (rest r0) = false /\ finished (rest r) = true /\
  if env_ok env1 then
    journal r = [(InsertMessage room uid (username (the_socket sid m)) message mt, None)] /\
    outbox (after r).2 =
      (outbox m' ++
       map (fun c => (c, NewMessage (seq_messages store' + 1) (userId s') (username s')
                                    message mt (env_date env1)))
           (everyone (roomCode s') m'))%list
  else
    (after r).1 = store' /\
    outbox (after r).2 = (outbox m' ++ [(sid, ErrorNotice "Failed to send message")])%list.
Proof.
  intros (s & Hs & Hroom & Huid & Hr & Hu & Hin) mt r0 r s'.
  subst r s'. on_run r0. unfold start, Handlers.send_message. cbn.
  rewrite (the_socket_lookup _ _ _ Hs), Hroom, Huid.
  rewrite !truthy_Some by done. cbn. back.
  unfold step. cbn. rewrite ?(the_socket_lookup _ _ _ Hs).
  destruct (env_ok env1); cbn; done.
Qed.

Lemma send_message_delivery_witness :
  present "A" "abc" "u1" room_abc /\
  finished (rest (run (at_time true 1 "") [at_time true 2 ""]
                      (Handlers.send_message "A" "hi" None) (no_rows, room_abc))) = true.
Proof.
  split; [exact present_room_abc |].
  exact (proj1 (send_message_delivery "A" "hi" None (at_time true 1 "")
                  (at_time true 2 "") no_rows room_abc "abc" "u1" present_room_abc)).
Defined.

(** ** A join that aborts *)

(** C2, as stated, fails: when the member-list query of a join is rejected,
    the error notice goes to the joining connection, but the connection has
    already been put in the room and keeps its room and user identity. *)
Lemma join_abort_keeps_presence :
  let w := (no_rows, lobby) in
  let r := run (at_time true 1 "") member_list_fails
               (Handlers.join_room "A" "abc" "alice") w in
  In (SelectRoomUsers "abc", Some SqliteFailure) (journal r) /\
  finished (rest r) = true /\
  sent_by r w = [("A", ErrorNotice "Failed to join room")] /\
  in_room "abc" (after r).2 = ["A"] /\
  roomCode (the_socket "A" (after r).2) = Some "abc" /\
  userId (the_socket "A" (after r).2) = Some "u1" /\
  ~ (forall room uid, ~ present "A" room uid (after r).2).
Proof.
  cbv zeta. split; [vm_compute; tauto|].
  do 5 (split; [vm_compute; reflexivity|]).
  intros H. apply (H "abc" "u1").
  eexists. split; [vm_compute; reflexivity|].
  repeat split; discriminate.
Qed.

(** C2, amended.  A join one of whose statements is rejected ends there
    with one delivery, the error notice to the joining connection.  If the
    rejected statement is one of the room and user lookups and writes, the
    sockets are what they were before the join; if it is one of the three
    snapshot queries, the registration made before them stays: the
    connection is in the room and carries the room and user identity. *)
Theorem join_room_abort sid rc un e0 e1 e2 e3 e4 e5 e6 e7 store m q e :
  let r := run e0 [e1; e2; e3; e4; e5; e6; e7] (Handlers.join_room sid rc un) (store, m) in
  let M := (after r).2 in
  In (q, Some e) (journal r) ->
  finished (rest r) = true /\
  sent_by r (store, m) = [(sid, ErrorNotice "Failed to join room")] /\
  (is_snapshot_query q = false -> sockets M = sockets m) /\
  (is_snapshot_query q = true ->
     sid ∈ in_room rc M /\ roomCode (the_socket sid M) = Some rc /\
     exists uid, userId (the_socket sid M) = Some uid /\
                 sockets M = registered sid rc uid un m).
Proof.
  intros r M Hin.
  pose proof (join_room_run sid rc un e0 e1 e2 e3 e4 e5 e6 e7 store m) as H.
  cbv zeta in H. fold r in H. fold M in H. clearbody r.
  destruct H as (Hfin & _ & _ & _ & _ & _ & [Hok | Hko]).
  - exfalso. destruct Hok as (uid & rp & us & Hj & Hroom & _).
    rewrite Hj in Hin. apply in_app_or in Hin as [Hin | Hin].
    + destruct Hroom as [(? & _ & _ & ->) | (? & ? & _ & _ & ->)]; cbn in Hin;
        intuition congruence.
    + cbn in Hin. intuition congruence.
  - destruct Hko as (before & q' & e' & Hj & Hb & Ho & _ & Hs).
    assert (q' = q) as ->.
    { rewrite Hj in Hin. apply in_app_or in Hin as [Hin | [Hin | []]]; [|congruence].
      rewrite List.Forall_forall in Hb. apply Hb in Hin. discriminate. }
    split; [done|]. split; [by apply sent_by_app|].
    split; intros Hq; rewrite Hq in Hs; [done|].
    destruct Hs as (uid & Hs). unfold the_socket. rewrite Hs, registered_lookup. cbn.
    split; [|split; [done | by exists uid]].
    apply elem_of_in_room. eexists. rewrite Hs, registered_lookup.
    split; [done|]. cbn. set_solver.
Qed.

Lemma join_room_abort_witness :
  let r := run (at_time true 1 "") member_list_fails
               (Handlers.join_room "A" "abc" "alice") (no_rows, lobby) in
  In (SelectRoomUsers "abc", Some SqliteFailure) (journal r) /\
  sent_by r (no_rows, lobby) = [("A", ErrorNotice "Failed to join room")].
Proof.
  cbv zeta.
  assert (H : In (SelectRoomUsers "abc", Some SqliteFailure)
                 (journal (run (at_time true 1 "") member_list_fails
                               (Handlers.join_room "A" "abc" "alice") (no_rows, lobby))))
    by (vm_compute; tauto).
  split; [exact H |].
  exact (proj1 (proj2 (join_room_abort "A" "abc" "alice" _ _ _ _ _ _ _ _ _ _ _ _ H))).
Defined.

(** ** A join that loses the race for a new room *)

(** C3, as stated, fails: the second of two overlapping joins of a new
    room has its insert rejected by the uniqueness of the room code, and
    that join ends with the error notice; it neither reads the room again
    nor completes. *)
Lemma concurrent_join_surfaces_error :
  let s := exec overlapping_joins empty_process in
  rooms (sys_world s).1 = [mkRoom "r1" "abc" 7] /\
  outbox (sys_world s).2 = [("B", ErrorNotice "Failed to join room")] /\
  console (sys_world s).2 =
    [LogConnected "A"; LogConnected "B";
     LogError "Error joining room:" SqliteConstraint] /\
  length (waiting s) = 1%nat /\
  roomCode (the_socket "B" (sys_world s).2) = None.
Proof. vm_compute. repeat split. Qed.

(** C3, amended.  Take a join that found no room with its code and is
    waiting for its insert, and let the insert execute in a store in which
    another join has created the room meanwhile.  The insert is rejected by
    the uniqueness of the code and the join ends there: the store is
    unchanged, so that exactly one room row has the code; the room is not
    read again; the sockets are untouched; and the error notice is
    delivered to the joining connection, to it alone. *)
Theorem join_room_insert_conflict sid rc un e0 e1 e2 store0 m0 store m room :
  let r1 := run e0 [e1] (Handlers.join_room sid rc un) (store0, m0) in
  find_room rc store0 = None ->
  env_ok e1 = true ->
  env_ok e2 = true ->
  store_wf store ->
  find_room rc store = Some room ->
  let r2 := step e2 (mkRunState (store, m) (journal r1) (rest r1)) in
  journal r2 = [(SelectRoom rc, None);
                (InsertRoom (env_uuid e1) rc, Some SqliteConstraint)] /\
  finished (rest r2) = true /\
  (after r2).1 = store /\
  length (filter (fun x => room_code x = rc) (rooms store)) = 1%nat /\
  sockets (after r2).2 = sockets m /\
  outbox (after r2).2 = (outbox m ++ [(sid, ErrorNotice "Failed to join room")])%list.
Proof.
  intros r1 Hnone Hok1 Hok2 [_ Hwf] Hroom r2.
  assert (Hex : existsb (fun r => streq (room_id r) (env_uuid e1)
                                  || streq (room_code r) rc) (rooms store) = true).
  { apply find_some in Hroom as [Hin Hc]. apply existsb_exists.
    exists room. split; [done|]. rewrite Hc. apply orb_true_r. }
  subst r2. on_run r1. unfold run, start, Handlers.join_room. cbn.
  rewrite steps_cons. unfold step at 1. cbn. rewrite Hok1. cbn.
  unfold find_room in Hnone. rewrite Hnone. cbn. rewrite steps_nil. back.
  unfold step. cbn. rewrite Hok2, Hex. cbn.
  repeat split.
  apply find_some in Hroom as [Hin Hc]. apply streq_true in Hc.
  by rewrite (filter_unique_key room_code rc (rooms store) room).
Qed.

Lemma join_room_insert_conflict_witness :
  find_room "abc" no_rows = None /\
  store_wf room_exists /\
  find_room "abc" room_exists = Some (mkRoom "r1" "abc" 7) /\
  length (filter (fun x => room_code x = "abc") (rooms room_exists)) = 1%nat.
Proof.
  assert (Hwf : store_wf room_exists).
  { split; [apply NoDup_nil_2 | apply NoDup_singleton]. }
  split; [reflexivity|]. split; [exact Hwf|]. split; [reflexivity|].
  exact (proj1 (proj2 (proj2 (proj2
    (join_room_insert_conflict "B" "abc" "bob" (at_time true 4 "") (at_time true 6 "r2")
       (at_time true 8 "") no_rows lobby room_exists lobby (mkRoom "r1" "abc" 7)
       eq_refl eq_refl eq_refl Hwf eq_refl))))).
Defined.


(** ** Joining again under the same name *)



(** ** Disconnecting *)

(** C5. The disconnect of a connection with an established presence
    executes [UPDATE users SET is_online = 0, last_seen = now WHERE
    socket_id = sid].  Whether the update succeeds or is rejected, no user
    row is deleted or added, and a row whose stored connection id is not
    the disconnecting one (its user has reconnected elsewhere) is left
    exactly as it was; a row changes only by being marked offline at the
    time of the update, and only if its stored connection id is the
    disconnecting one.  When the update succeeds, every such row is so
    marked. *)
Theorem disconnect_marks_offline sid e0 e1 e2 store m room uid :
  present sid room uid m ->
  let r := run e0 [e1; e2] (Handlers.disconnect sid) (store, m) in
  let before := users store in
  let now := users (after r).1 in
  finished (rest r) = true /\
  map user_id now = map user_id before /\
  (forall i u, before !! i = Some u ->
     exists u', now !! i = Some u' /\
       (user_socket_id u <> sid -> u' = u) /\
       (u' <> u -> user_socket_id u = sid /\ user_is_online u' = 0 /\
                   user_last_seen u' = env_now e1 /\
                   u' = set_offline (env_now e1) u)) /\
  (if env_ok e1
   then now = update_where (fun u => streq (user_socket_id u) sid)
                           (set_offline (env_now e1)) before
   else now = before).
Proof.
  intros (s & Hs & Hroom & Huid & Hr & Hu & Hin) r before now.
  subst now before. on_run r. unfold run, start, Handlers.disconnect. cbn.
  rewrite the_socket_set_sockets, lookup_insert_eq. cbn.
  rewrite (the_socket_lookup _ _ _ Hs), Hroom, Huid, !truthy_Some by done. cbn.
  do 2 turn; rewrite steps_nil; back; cbn [after journal rest fst snd users set_users].
  - split; [done|]. split; [by apply map_update_where|]. split; [|done].
    intros i u Hi. rewrite lookup_update_where, Hi. cbn.
    eexists. split; [done|]. destruct (streq (user_socket_id u) sid) eqn:E.
    + apply streq_true in E. split; [done|]. done.
    + split; done.
  - split; [done|]. split; [by apply map_update_where|]. split; [|done].
    intros i u Hi. rewrite lookup_update_where, Hi. cbn.
    eexists. split; [done|]. destruct (streq (user_socket_id u) sid) eqn:E.
    + apply streq_true in E. split; [done|]. done.
    + split; done.
  - split; [done|]. split; [done|]. split; [|done].
    intros i u Hi. exists u. done.
Qed.

Lemma disconnect_marks_offline_witness :
  present "A" "abc" "u1" room_abc /\
  map user_id (users (after (run (at_time true 40 "") [at_time true 41 ""; at_time true 42 ""]
                                 (Handlers.disconnect "A") (alice_on_C, room_abc))).1)
  = ["u1"].
Proof.
  split; [exact present_room_abc |].
  exact (proj1 (proj2 (disconnect_marks_offline "A" (at_time true 40 "")
                         (at_time true 41 "") (at_time true 42 "") alice_on_C room_abc
                         "abc" "u1" present_room_abc))).
Defined.

(** ** Ending a call *)

(** C6, as stated, fails: [end-call] does not single out the most recent
    active call row of the room.  With two active rows, the older one is
    set to ended as well. *)
Lemma end_call_ends_older_row :
  let r := run (at_time true 50 "") [at_time true 51 ""]
               (Handlers.end_call "A") (two_active_calls, room_abc) in
  map (fun c => (call_id c, call_started_at c, call_status c, call_ended_at c))
      (calls two_active_calls)
  = [(1, 10, "active", None); (2, 20, "active", None)] /\
  map (fun c => (call_id c, call_started_at c, call_status c, call_ended_at c))
      (calls (after r).1)
  = [(1, 10, "ended", Some 51); (2, 20, "ended", Some 51)].
Proof. vm_compute. split; reflexivity. Qed.

(** C6, amended.  An [end-call] event of a connection with an established
    presence removes the room's entry of [activeCalls].  When its update of
    the call table succeeds, every call row of the room with status active
    is set to ended with the time of the update as [ended_at] (none, if the
    room has no active row), every other row is untouched, and the
    [call-ended] notice with the sender's id and username goes to the other
    connections of the room and not to the sender. *)
Theorem end_call_effect sid e0 e1 store m room uid :
  present sid room uid m ->
  let r := run e0 [e1] (Handlers.end_call sid) (store, m) in
  let s := the_socket sid m in
  journal r = [(UpdateCallsEnded room, if env_ok e1 then None else Some SqliteFailure)] /\
  activeCalls (after r).2 = delete room (activeCalls m) /\
  (env_ok e1 = true ->
   finished (rest r) = true /\
   (forall i c, calls store !! i = Some c ->
      exists c', calls (after r).1 !! i = Some c' /\
        (call_room_code c = room -> call_status c = "active" ->
           c' = set_ended (env_now e1) c /\ call_status c' = "ended" /\
           call_ended_at c' = Some (env_now e1)) /\
        (call_room_code c <> room \/ call_status c <> "active" -> c' = c)) /\
   length (calls (after r).1) = length (calls store) /\
   sent_by r (store, m) =
     map (fun c => (c, CallEnded (Some uid) (username s))) (others sid (Some room) m) /\
   (forall ev, ~ In (sid, ev) (sent_by r (store, m))) /\
   (forall c, In c (others sid (Some room) m) <-> c <> sid /\ c ∈ in_room room m)).
Proof.
  intros (s & Hs & Hroom & Huid & Hr & Hu & Hin) r s'.
  subst s'. on_run r. unfold run, start, Handlers.end_call. cbn.
  rewrite (the_socket_lookup _ _ _ Hs). unfold if_roomCode. rewrite Hroom.
  rewrite truthy_Some by done. cbn.
  turn; rewrite steps_nil; back; cbn [after journal rest fst snd calls set_calls];
    rewrite ?the_socket_set_activeCalls, ?(the_socket_lookup _ _ _ Hs), ?Hroom, ?Huid.
  2: { split; [done|]. split; [done|]. discriminate. }
  split; [done|]. split; [done|]. intros _.
  assert (Hsent : sent_by
            (mkRunState
               (set_calls (update_where
                  (fun c => streq (call_room_code c) room && streq (call_status c) "active")
                  (set_ended (env_now e1)) (calls store)) store,
                emit_to (others sid (Some room) (set_activeCalls (delete room (activeCalls m)) m))
                        (CallEnded (Some uid) (username s))
                        (set_activeCalls (delete room (activeCalls m)) m))
               [(UpdateCallsEnded room, None)] (Ret tt))
            (store, m)
          = map (fun c => (c, CallEnded (Some uid) (username s))) (others sid (Some room) m)).
  { apply sent_by_app. cbn [after snd]. by autorewrite with mem. }
  split; [done|]. split.
  { intros i c Hi. rewrite lookup_update_where, Hi. cbn. eexists. split; [done|]. split.
    - intros Hc Ha. rewrite Hc, Ha, !streq_refl. cbn. done.
    - intros Hne.
      destruct (streq (call_room_code c) room) eqn:E1;
        destruct (streq (call_status c) "active") eqn:E2; cbn; try done.
      apply streq_true in E1, E2. tauto. }
  split; [apply length_update_where|].
  split; [exact Hsent|]. split.
  - intros ev Hev. rewrite Hsent in Hev. apply in_map_iff in Hev as (c & Hc & Hin').
    apply list_elem_of_In, elem_of_others in Hin' as [Hne _]. congruence.
  - intros c. rewrite <- list_elem_of_In. apply elem_of_others.
Qed.

Lemma end_call_effect_witness :
  present "A" "abc" "u1" room_abc /\
  activeCalls (after (run (at_time true 50 "") [at_time true 51 ""]
                          (Handlers.end_call "A") (two_active_calls, room_abc))).2
  = delete "abc" (activeCalls room_abc).
Proof.
  split; [exact present_room_abc |].
  exact (proj1 (proj2 (end_call_effect "A" (at_time true 50 "") (at_time true 51 "")
                         two_active_calls room_abc "abc" "u1" present_room_abc))).
Defined.

(** ** The life of a call row *)

(** An ended call row stays ended, whatever statement executes. *)
Lemma exec_query_keeps_ended now q store id :
  status_of id store = Some "ended" ->
  status_of id (exec_query now q store).1 = Some "ended".
Proof.
  unfold status_of. intros H.
  destruct q; cbn; try done.
  - by destruct (existsb _ _).
  - by destruct (existsb _ _).
  - rewrite find_update_where by done.
    destruct (List.find _ (calls store)) as [c|] eqn:E; [|done].
    cbn in *. injection H as H.
    assert (Hs : streq (call_status c) "active" = false)
      by (apply streq_false; congruence).
    rewrite Hs, andb_false_r. by rewrite H.
  - destruct (List.find _ (calls store)) as [c|] eqn:E; [|done].
    by rewrite (find_app_Some _ _ _ _ E).
Qed.

(** A turn of a handler executes at most one statement. *)
Lemma settle_store {A} env (t : Async A) store :
  (settle env t store).1.1 = store \/
  exists q, (settle env t store).1.1 = (exec_query (env_now env) q store).1.
Proof.
  destruct t; cbn; auto.
  destruct (env_ok env); cbn; auto.
  right. exists q. by destruct (exec_query (env_now env) q store) as [? [?|?]].
Qed.

Lemma step_store {A} env (r : Run A) :
  (after (step env r)).1 = (after r).1 \/
  exists q, (after (step env r)).1 = (exec_query (env_now env) q (after r).1).1.
Proof.
  unfold step.
  pose proof (settle_store env (rest r) (after r).1) as H.
  destruct (settle env (rest r) (after r).1) as [[store' ran] t'].
  destruct (sync env t' (after r).2) as [m' t'']. exact H.
Qed.

Lemma start_store {A} env (t : Async A) w : (after (start env t w)).1 = w.1.
Proof. unfold start. by destruct (sync env t w.2). Qed.

(** So does every move of the process. *)
Lemma act_store s ea :
  (sys_world (act s ea)).1 = (sys_world s).1 \/
  exists q, (sys_world (act s ea)).1 = (exec_query (env_now ea.1) q (sys_world s).1).1.
Proof.
  unfold act. destruct ea.2 as [ev | i]; cbn.
  - left. apply start_store.
  - destruct (waiting s !! i) as [t|]; [|by left]. cbn.
    apply (step_store ea.1 (mkRunState (sys_world s) [] t)).
Qed.

Lemma act_keeps_ended s ea id :
  status_of id (sys_world s).1 = Some "ended" ->
  status_of id (sys_world (act s ea)).1 = Some "ended".
Proof.
  intros H. destruct (act_store s ea) as [-> | [q ->]]; [done|].
  by apply exec_query_keeps_ended.
Qed.

Lemma trace_head sched s : exists l, trace sched s = s :: l.
Proof. destruct sched; cbn; eauto. Qed.

Lemma ended_no_transition a b id sched s :
  a <> "ended" ->
  status_of id (sys_world s).1 = Some "ended" ->
  transitions a b id (map (fun s => (sys_world s).1) (trace sched s)) = 0%nat.
Proof.
  intros Ha. revert s. induction sched as [|ea sched IH]; intros s H; [done|].
  specialize (IH (act s ea) (act_keeps_ended s ea id H)).
  cbn [trace map]. destruct (trace_head sched (act s ea)) as [l Hl].
  rewrite Hl in *. cbn [map transitions] in *. rewrite IH.
  rewrite bool_decide_eq_false_2; [done|]. intros [H1 _]. congruence.
Qed.

(** C7. Along every history of the process, whatever events arrive and
    however the waiting handlers take their turns, the status of a call
    row goes from active to ended at most once and never from ended to
    active. *)
Theorem call_status_transitions sched s id :
  let history := map (fun s => (sys_world s).1) (trace sched s) in
  (transitions "active" "ended" id history <= 1)%nat /\
  transitions "ended" "active" id history = 0%nat.
Proof.
  cbv zeta. revert s. induction sched as [|ea sched IH]; intros s; [cbn; lia|].
  destruct (IH (act s ea)) as [IH1 IH2].
  pose proof (ended_no_transition "active" "ended" id sched (act s ea)) as H0.
  cbn [trace map]. destruct (trace_head sched (act s ea)) as [l Hl].
  rewrite Hl in *. cbn [map transitions] in *. split.
  - case_bool_decide as Hd; [|lia].
    destruct Hd as [_ Hd]. rewrite H0; [lia | discriminate | done].
  - rewrite IH2. case_bool_decide as Hd; [|done].
    destruct Hd as [Hd1 Hd2].
    rewrite (act_keeps_ended s ea id Hd1) in Hd2. discriminate.
Qed.

(** The one transition does happen: a call is started and then ended. *)
Example call_ends_once :
  let sched :=
    [(at_time true 1 "", Arrive (CallStarted "A" "video"));
     (at_time true 2 "", Resume 0);
     (at_time true 3 "", Arrive (EndCall "A"));
     (at_time true 4 "", Resume 0)] in
  let history :=
    map (fun s => (sys_world s).1) (trace sched (mkSys (no_rows, room_abc) [])) in
  map (status_of 1) history =
    [None; None; Some "active"; Some "active"; Some "ended"] /\
  transitions "active" "ended" 1 history = 1%nat.
Proof. vm_compute. split; reflexivity. Qed.

(** *** The orders of the snapshot queries *)

Lemma string_leb_trans a b c :
  String.leb a b = true -> String.leb b c = true -> String.leb a c = true.
Proof.
  unfold String.leb. revert b c.
  induction a as [|x a IH]; intros [|y b] [|z c]; cbn; try done.
  unfold Ascii.compare.
  destruct (N.compare_spec (N_of_ascii x) (N_of_ascii y)) as [Hxy|Hxy|Hxy];
    destruct (N.compare_spec (N_of_ascii y) (N_of_ascii z)) as [Hyz|Hyz|Hyz];
    destruct (N.compare_spec (N_of_ascii x) (N_of_ascii z)) as [Hxz|Hxz|Hxz];
    try done; try lia.
  apply IH.
Qed.

#[global] Instance users_order_total : Total users_order.
Proof.
  intros a b. unfold users_order.
  destruct (Z.lt_trichotomy (ur_is_online a) (ur_is_online b)) as [H | [H | H]];
    [right; by left | | left; by left].
  destruct (String.leb_total (ur_username a) (ur_username b));
    [left | right]; right; split; congruence.
Qed.

#[global] Instance users_order_trans : Transitive users_order.
Proof.
  intros a b c. unfold users_order.
  intros [H1 | [H1 L1]] [H2 | [H2 L2]]; try (left; lia).
  right. split; [lia | by eapply string_leb_trans].
Qed.

#[global] Instance messages_order_total : Total messages_order.
Proof. intros a b. unfold messages_order. lia. Qed.
#[global] Instance messages_order_trans : Transitive messages_order.
Proof. intros a b c. unfold messages_order. lia. Qed.
#[global] Instance calls_order_total : Total calls_order.
Proof. intros a b. unfold calls_order. lia. Qed.
#[global] Instance calls_order_trans : Transitive calls_order.
Proof. intros a b c. unfold calls_order. lia. Qed.

(** *** The constraints of the schema hold in every store *)

Lemma existsb_false_not_in {A} (k : A -> string) (v : string) (l : list A) :
  existsb (fun x => streq (k x) v) l = false -> v ∉ map k l.
Proof.
  intros H Hin. apply list_elem_of_In, in_map_iff in Hin as (x & <- & Hx).
  assert (existsb (fun y => streq (k y) (k x)) l = true); [|congruence].
  apply existsb_exists. exists x. by rewrite streq_refl.
Qed.

Lemma NoDup_snoc_map {A} (k : A -> string) (l : list A) (x : A) :
  NoDup (map k l) -> k x ∉ map k l -> NoDup (map k (l ++ [x])).
Proof.
  intros Hl Hx. rewrite map_app. apply NoDup_app. split; [done|].
  split; [|apply NoDup_singleton].
  intros y Hy Hy'. apply list_elem_of_singleton in Hy'. by subst.
Qed.

Lemma NoDup_map_filter {A} (k : A -> string) (p : A -> bool) (l : list A) :
  NoDup (map k l) -> NoDup (map k (List.filter p l)).
Proof.
  induction l as [|a l IH]; [done|]. cbn. intros Hnd.
  inversion_clear Hnd as [|?? Hnotin Hnd'].
  destruct (p a); cbn; [|by apply IH]. constructor; [|by apply IH].
  intros Hin. apply Hnotin. apply list_elem_of_In, in_map_iff in Hin as (x & Hx & Hin).
  apply list_elem_of_In, in_map_iff. exists x. split; [done|].
  by apply filter_In in Hin as [? _].
Qed.

Lemma exec_query_wf now q store :
  store_wf store -> store_wf (exec_query now q store).1.
Proof.
  intros [Hu Hr]. unfold store_wf.
  destruct q; cbn; try done.
  - destruct (existsb _ _) eqn:E; cbn; [done|]. split; [done|].
    apply NoDup_snoc_map; [done|]. cbn.
    apply existsb_false_not_in.
    apply not_true_is_false. intros Hex. apply existsb_exists in Hex as (x & Hx & Hc).
    assert (existsb (fun r => streq (room_id r) id || streq (room_code r) code)
                    (rooms store) = true); [|congruence].
    apply existsb_exists. exists x. split; [done|]. rewrite Hc. apply orb_true_r.
  - split; [|done]. by rewrite map_update_where.
  - destruct (existsb _ _) eqn:E; cbn; [done|]. split; [|done].
    apply NoDup_snoc_map; [done|]. cbn. by apply existsb_false_not_in.
  - split; [|done]. by rewrite map_update_where.
  - split; [|done]. by apply NoDup_map_filter.
Qed.

Lemma step_wf {A} env (r : Run A) : store_wf (after r).1 -> store_wf (after (step env r)).1.
Proof.
  intros H. destruct (step_store env r) as [-> | [q ->]]; [done|].
  by apply exec_query_wf.
Qed.

Lemma run_wf {A} env envs (t : Async A) w : store_wf w.1 -> store_wf (after (run env envs t w)).1.
Proof.
  intros H. unfold run.
  assert (H0 : store_wf (after (start env t w)).1) by (by rewrite start_store).
  revert H0. generalize (start env t w). unfold steps.
  induction envs as [|e envs IH]; intros r Hr; [done|].
  cbn. apply IH. by apply step_wf.
Qed.

Lemma exec_all_wf qs store : store_wf store -> store_wf (exec_all qs store).
Proof.
  revert store. induction qs as [|[now q] qs IH]; intros store H; [done|].
  cbn. apply IH. by apply exec_query_wf.
Qed.

(** With unique user ids the join of the history query yields one row per
    message. *)
Lemma left_join_users_single us m :
  NoDup (map user_id us) ->
  exists o, left_join_users us m = [message_row m o].
Proof.
  intros Hnd. unfold left_join_users.
  destruct (filter (fun u => user_id u = msg_user_id m) us) as [|x l] eqn:E; [eauto|].
  assert (Hx : x ∈ filter (fun u => user_id u = msg_user_id m) us) by (rewrite E; left).
  apply list_elem_of_filter in Hx as [Hid Hx].
  rewrite (filter_unique_key user_id (msg_user_id m) us x Hnd) in E;
    [|by apply list_elem_of_In|done].
  injection E as <-. cbn. eauto.
Qed.

Lemma history_rows us ms :
  NoDup (map user_id us) ->
  map message_of_row (flat_map (left_join_users us) ms) = map message_columns ms.
Proof.
  intros Hnd. induction ms as [|m ms IH]; [done|]. cbn.
  destruct (left_join_users_single us m Hnd) as [o ->]. cbn. by rewrite IH.
Qed.

(** The constraints hold of the empty database and through every history
    of the process. *)
Lemma no_rows_wf : store_wf no_rows.
Proof. split; apply NoDup_nil_2. Qed.

Lemma exec_wf sched s :
  store_wf (sys_world s).1 -> store_wf (sys_world (exec sched s)).1.
Proof.
  revert s. induction sched as [|ea sched IH]; intros s H; [done|].
  cbn. apply IH. destruct (act_store s ea) as [-> | [q ->]]; [done|].
  by apply exec_query_wf.
Qed.

(** ** The snapshot of a join *)

(** C8. The snapshot a join emits to the joining connection is read from
    the tables as the join leaves them.  Its message list holds every
    message row of the room, once each, in ascending order of creation
    time; its member list holds every user row of the room, online or
    not, those with the greater [is_online] first and, among rows with the
    same [is_online], in ascending order of username (by character code);
    its call list holds at most ten call rows of the room, latest start
    first, and no call of the room left out started later than a listed
    one.  Lists in these orders have every earlier element in order with
    every later one. *)
Theorem join_snapshot_contents sid rc un e0 e1 e2 e3 e4 e5 e6 e7 store m
    rc' uid us ms cs :
  store_wf store ->
  let r := run e0 [e1; e2; e3; e4; e5; e6; e7] (Handlers.join_room sid rc un) (store, m) in
  let S := (after r).1 in
  In (sid, RoomJoined rc' uid us ms cs) (sent_by r (store, m)) ->
  (StronglySorted messages_order ms /\
   map message_of_row ms ≡ₚ
     map message_columns (filter (fun x => msg_room_code x = rc) (messages S)) /\
   messages S = messages store) /\
  (exists rows,
     us = map member_full rows /\
     StronglySorted users_order rows /\
     rows ≡ₚ map user_row (filter (fun u => user_room_code u = rc) (users S))) /\
  ((length cs <= 10)%nat /\
   StronglySorted calls_order cs /\
   exists older,
     (cs ++ older)%list ≡ₚ filter (fun c => call_room_code c = rc) (calls S) /\
     (older = [] \/ length cs = 10%nat) /\
     (forall x y, In x cs -> In y older -> call_started_at y <= call_started_at x) /\
     calls S = calls store).
Proof.
  intros Hwf r S Hin.
  assert (HwfS : store_wf S) by (by apply run_wf).
  apply join_room_snapshot in Hin as (_ & -> & -> & -> & Hm & Hc & _).
  fold r in Hm, Hc |- *. fold S in Hm, Hc |- *. clearbody r.
  split; [|split].
  - unfold select_room_messages. split; [apply StronglySorted_merge_sort; apply _|].
    split; [|done].
    rewrite <- (history_rows (users S)) by apply HwfS.
    apply Permutation_map, merge_sort_Permutation.
  - eexists. split; [reflexivity|]. unfold select_room_users.
    split; [apply StronglySorted_merge_sort; apply _ | apply merge_sort_Permutation].
  - unfold select_call_history.
    set (sorted := merge_sort calls_order
                     (filter (fun c => call_room_code c = rc) (calls S))).
    assert (Hs : StronglySorted calls_order (take 10 sorted ++ drop 10 sorted)).
    { rewrite firstn_skipn. apply StronglySorted_merge_sort; apply _. }
    split; [rewrite length_take; lia|].
    split; [by apply StronglySorted_app_1_l in Hs|].
    exists (drop 10 sorted). split; [rewrite firstn_skipn; apply merge_sort_Permutation|].
    split.
    { destruct (decide (length sorted <= 10)%nat) as [Hle | Hgt].
      - left. by apply drop_ge.
      - right. rewrite length_take. lia. }
    split; [|done].
    intros x y Hx Hy.
    apply (StronglySorted_app_1_elem_of _ _ _ x y Hs); by apply list_elem_of_In.
Qed.

Lemma join_snapshot_contents_witness :
  let r := run (at_time true 31 "") later_join
               (Handlers.join_room "A" "abc" "alice") (history_abc, lobby) in
  store_wf history_abc /\
  In ("A", snapshot_alice) (sent_by r (history_abc, lobby)) /\
  (length calls_abc <= 10)%nat.
Proof.
  cbv zeta.
  assert (H : In ("A", snapshot_alice)
                 (sent_by (run (at_time true 31 "") later_join
                               (Handlers.join_room "A" "abc" "alice") (history_abc, lobby))
                          (history_abc, lobby)))
    by (vm_compute; left; reflexivity).
  split; [exact history_abc_wf|]. split; [exact H|].
  exact (proj1 (proj2 (proj2
    (join_snapshot_contents "A" "abc" "alice" _ _ _ _ _ _ _ _ history_abc lobby
       _ _ _ _ _ history_abc_wf H)))).
Defined.

(** ** The reclamation sweeper *)

Lemma inactive_spec now u :
  inactive now u = true <-> user_is_online u = 0 /\ user_last_seen u < now - 3600.
Proof. unfold inactive. rewrite andb_true_iff, Z.eqb_eq, Z.ltb_lt. tauto. Qed.

(** A run of the sweeper, by the outcome of its statement. *)
Lemma cleanup_run g0 g1 st mm :
  let x := run g0 [g1] Handlers.cleanup (st, mm) in
  finished (rest x) = true /\
  journal x = [(DeleteInactiveUsers, if env_ok g1 then None else Some SqliteFailure)] /\
  sockets (after x).2 = sockets mm /\ outbox (after x).2 = outbox mm /\
  if env_ok g1 then
    (after x).1 = set_users (List.filter (fun u => negb (inactive (env_now g1) u))
                                         (users st)) st
  else (after x).1 = st /\
       console (after x).2 =
         (console mm ++ [LogError "Error cleaning up users:" SqliteFailure])%list.
Proof.
  intros x. on_run x. unfold run, start, Handlers.cleanup. cbn.
  rewrite steps_cons, steps_nil. unfold step. cbn.
  destruct (env_ok g1) eqn:E; cbn; back; rewrite ?E; [|done].
  destruct (0 <? _); cbn; done.
Qed.

(** C9. A run of the sweeper executes the one delete statement.  When it
    succeeds, the user rows that remain are exactly those that are not
    both offline ([is_online = 0]) and last seen more than 3600 seconds
    before the time of the run: every such row is gone, every other row is
    still there, in its place; nothing else in the store changes.  When it
    is rejected, the store is unchanged and the error is written to the
    console; the next run is not affected: if its statement succeeds, it
    deletes exactly the rows that are stale at its own time. *)
Theorem sweeper_run e0 e1 f0 f1 store m :
  let r := run e0 [e1] Handlers.cleanup (store, m) in
  let stale := fun now u => user_is_online u = 0 /\ user_last_seen u < now - 3600 in
  finished (rest r) = true /\
  journal r = [(DeleteInactiveUsers, if env_ok e1 then None else Some SqliteFailure)] /\
  rooms (after r).1 = rooms store /\ messages (after r).1 = messages store /\
  calls (after r).1 = calls store /\ sockets (after r).2 = sockets m /\
  outbox (after r).2 = outbox m /\
  if env_ok e1 then
    users (after r).1 =
      List.filter (fun u => negb (inactive (env_now e1) u)) (users store) /\
    (forall u, In u (users (after r).1) <->
               In u (users store) /\ ~ stale (env_now e1) u)
  else
    (after r).1 = store /\
    console (after r).2 =
      (console m ++ [LogError "Error cleaning up users:" SqliteFailure])%list /\
    let r2 := run f0 [f1] Handlers.cleanup (after r) in
    finished (rest r2) = true /\
    if env_ok f1 then
      forall u, In u (users (after r2).1) <->
                In u (users store) /\ ~ stale (env_now f1) u
    else (after r2).1 = store.
Proof.
  intros r stale.
  assert (Hfilter : forall now us u,
    In u (List.filter (fun u => negb (inactive now u)) us) <-> In u us /\ ~ stale now u).
  { intros now us u. rewrite filter_In, negb_true_iff, <- not_true_iff_false.
    by rewrite inactive_spec. }
  destruct (cleanup_run e0 e1 store m) as (Hfin & Hj & Hs & Ho & Hst). fold r in Hfin, Hj, Hs, Ho, Hst.
  pose proof (cleanup_run f0 f1 (after r).1 (after r).2) as H2.
  replace ((after r).1, (after r).2) with (after r) in H2 by (by destruct (after r)).
  clearbody r.
  split; [done|]. split; [done|].
  destruct (env_ok e1).
  - rewrite Hst. cbn. repeat (split; [done|]). apply Hfilter.
  - destruct Hst as [Heq Hc]. cbv zeta in H2 |- *.
    destruct H2 as (Hfin2 & _ & _ & _ & Hst2). rewrite Heq in Hst2 |- *.
    repeat (split; [done|]).
    destruct (env_ok f1).
    + rewrite Hst2. cbn. apply Hfilter.
    + apply Hst2.
Qed.

(** ** Messages of a user the sweeper has removed *)

(** A user id that is in no row stays so, as long as no row is inserted
    under it. *)
Lemma exec_query_absent now q store id :
  (forall a b c, q <> InsertUser id a b c) ->
  ~ In id (map user_id (users store)) ->
  ~ In id (map user_id (users (exec_query now q store).1)).
Proof.
  intros Hq Habs. destruct q; cbn; try done.
  - by destruct (existsb _ _).
  - by rewrite map_update_where.
  - destruct (existsb _ _); cbn; [done|].
    rewrite map_app, in_app_iff. cbn. intros [H | [H | []]]; [done|].
    subst. by eapply Hq.
  - by rewrite map_update_where.
  - intros H. apply Habs. apply in_map_iff in H as (x & Hx & Hin).
    apply in_map_iff. exists x. split; [done|]. by apply filter_In in Hin as [? _].
Qed.

Lemma exec_all_absent qs store id :
  Forall (fun nq : Z * query => forall a b c, nq.2 <> InsertUser id a b c) qs ->
  ~ In id (map user_id (users store)) ->
  ~ In id (map user_id (users (exec_all qs store))).
Proof.
  revert store. induction qs as [|[now q] qs IH]; intros store Hqs H; [done|].
  inversion_clear Hqs as [|?? Hq Hqs']. cbn. apply IH; [done|].
  by apply exec_query_absent.
Qed.

(** Message rows are never removed. *)
Lemma exec_query_keeps_message now q store msg :
  In msg (messages store) -> In msg (messages (exec_query now q store).1).
Proof.
  intros H. destruct q; cbn; try done.
  - by destruct (existsb _ _).
  - by destruct (existsb _ _).
  - apply in_or_app. by left.
Qed.

Lemma exec_all_keeps_message qs store msg :
  In msg (messages store) -> In msg (messages (exec_all qs store)).
Proof.
  revert store. induction qs as [|[now q] qs IH]; intros store H; [done|].
  cbn. apply IH. by apply exec_query_keeps_message.
Qed.

(** The history query gives a message whose user id is in no user row a
    NULL username. *)
Lemma history_of_absent_user rc store msg :
  In msg (messages store) -> msg_room_code msg = rc ->
  ~ In (msg_user_id msg) (map user_id (users store)) ->
  In (message_row msg None) (select_room_messages rc store).
Proof.
  intros Hmsg Hrc Habs. unfold select_room_messages.
  apply list_elem_of_In. rewrite merge_sort_Permutation. apply list_elem_of_In.
  apply in_flat_map. exists msg. split.
  - apply list_elem_of_In, list_elem_of_filter. split; [done | by apply list_elem_of_In].
  - unfold left_join_users.
    destruct (filter _ (users store)) as [|x l] eqn:E; [by left|].
    exfalso. assert (Hx : x ∈ filter (fun u => user_id u = msg_user_id msg) (users store))
      by (rewrite E; left).
    apply list_elem_of_filter in Hx as [Hid Hx]. apply Habs, in_map_iff.
    exists x. split; [done | by apply list_elem_of_In].
Qed.

(** C10. Let the sweeper delete the row of user [u], and let a join of a
    room in which [u] has a message emit its snapshot at any later time,
    no user row having been inserted under the id of [u] (ids are drawn by
    [uuidv4()]).  The message is in the history of the snapshot, with the
    columns of the message row, and its username is NULL, whatever
    username the message row itself stores: the history query takes the
    username from the joined user row, and there is none. *)
Theorem swept_user_messages_lose_username
    e0 e1 store m u msg between sid rc un f0 f1 f2 f3 f4 f5 f6 f7 m'
    rc' uid us ms cs :
  store_wf store ->
  In u (users store) ->
  inactive (env_now e1) u = true ->
  env_ok e1 = true ->
  In msg (messages store) ->
  msg_user_id msg = user_id u ->
  msg_room_code msg = rc ->
  let r1 := run e0 [e1] Handlers.cleanup (store, m) in
  Forall (fun nq : Z * query => forall a b c, nq.2 <> InsertUser (user_id u) a b c)
         between ->
  env_uuid f2 <> user_id u ->
  env_uuid f3 <> user_id u ->
  let store2 := exec_all between (after r1).1 in
  let r2 := run f0 [f1; f2; f3; f4; f5; f6; f7]
                (Handlers.join_room sid rc un) (store2, m') in
  In (sid, RoomJoined rc' uid us ms cs) (sent_by r2 (store2, m')) ->
  ~ In (user_id u) (map user_id (users (after r1).1)) /\
  exists row,
    In row ms /\ message_of_row row = message_columns msg /\ mr_username row = None.
Proof.
  intros [Hnd _] Hu Hstale Hok Hmsg Hid Hrc r1 Hbetween Hf2 Hf3 store2 r2 Hin.
  pose proof (cleanup_run e0 e1 store m) as Hsweep.
  cbv zeta in Hsweep. fold r1 in Hsweep. rewrite Hok in Hsweep.
  destruct Hsweep as (_ & _ & _ & _ & Hafter).
  assert (Hmsgs : messages (after r1).1 = messages store) by (by rewrite Hafter).
  assert (Husers : users (after r1).1 =
                   List.filter (fun u => negb (inactive (env_now e1) u)) (users store))
    by (by rewrite Hafter).
  assert (Hgone : ~ In (user_id u) (map user_id (users (after r1).1))).
  { rewrite Husers. intros H. apply in_map_iff in H as (x & Hx & Hxin).
    apply filter_In in Hxin as [Hxin Hact].
    assert (x = u); [|subst; by rewrite Hstale in Hact].
    assert (Hf : filter (fun y => user_id y = user_id u) (users store) = [u])
      by (by apply filter_unique_key).
    assert (Hxf : x ∈ filter (fun y => user_id y = user_id u) (users store))
      by (apply list_elem_of_filter; split; [done | by apply list_elem_of_In]).
    rewrite Hf in Hxf. by apply list_elem_of_singleton in Hxf. }
  split; [done|].
  pose proof (exec_all_absent between (after r1).1 (user_id u) Hbetween Hgone) as Habs.
  pose proof (exec_all_keeps_message between (after r1).1 msg) as Hkept.
  rewrite Hmsgs in Hkept. specialize (Hkept Hmsg).
  fold store2 in Habs, Hkept.
  apply join_room_snapshot in Hin as (_ & _ & -> & _ & Hm2 & _ & _ & Hu2).
  fold r2 in Hm2, Hu2 |- *. clearbody r2 store2 r1.
  exists (message_row msg None). split; [|done].
  apply history_of_absent_user; [by rewrite Hm2 | done |].
  rewrite Hid.
  destruct Hu2 as [(x & now & _ & _ & -> & _) | (now & _ & _ & -> & Huuid)].
  - by rewrite map_update_where.
  - rewrite map_app, in_app_iff. cbn. intros [H | [H | []]]; [done|].
    cbn in Huuid. intuition congruence.
Qed.

Lemma swept_user_messages_lose_username_witness :
  let r1 := run (at_time true 5000 "") [at_time true 5001 ""] Handlers.cleanup
                (history_abc, lobby) in
  let r2 := run (at_time true 6031 "") later_join
                (Handlers.join_room "A" "abc" "dave") (exec_all [] (after r1).1, lobby) in
  store_wf history_abc /\
  In bob_row (users history_abc) /\
  inactive 5001 bob_row = true /\
  In bob_hello (messages history_abc) /\
  In ("A", snapshot_dave) (sent_by r2 (exec_all [] (after r1).1, lobby)) /\
  ~ In "u2" (map user_id (users (after r1).1)).
Proof.
  cbv zeta.
  assert (Hu : In bob_row (users history_abc)) by (left; reflexivity).
  assert (Hm : In bob_hello (messages history_abc)) by (left; reflexivity).
  assert (H : In ("A", snapshot_dave)
                 (sent_by (run (at_time true 6031 "") later_join
                               (Handlers.join_room "A" "abc" "dave")
                               (exec_all []
                                  (after (run (at_time true 5000 "") [at_time true 5001 ""]
                                              Handlers.cleanup (history_abc, lobby))).1,
                                lobby))
                          (exec_all []
                             (after (run (at_time true 5000 "") [at_time true 5001 ""]
                                         Handlers.cleanup (history_abc, lobby))).1,
                           lobby)))
    by (vm_compute; left; reflexivity).
  split; [exact history_abc_wf|]. split; [exact Hu|]. split; [reflexivity|].
  split; [exact Hm|]. split; [exact H|].
  refine (proj1 (swept_user_messages_lose_username
            (at_time true 5000 "") (at_time true 5001 "") history_abc lobby
            bob_row bob_hello [] "A" "abc" "dave" (at_time true 6031 "")
            _ _ _ _ _ _ _ lobby _ _ _ _ _
            history_abc_wf Hu eq_refl eq_refl Hm eq_refl eq_refl
            (List.Forall_nil _) _ _ H)); cbn; discriminate.
Defined.

(** ** Events of a connection that is in no room *)

(** A handler that returns before any await. *)
Lemma run_of_finished_start {A} env envs (t : Async A) w m' (a : A) :
  sync env t w.2 = (m', Ret a) ->
  run env envs t w = mkRunState (w.1, m') [] (Ret a).
Proof.
  intros H. unfold run, start. rewrite H. by apply steps_finished.
Qed.

(** The run of a [send-message] event that does not pass the guard. *)
Lemma send_message_rejected sid message messageType env envs store m :
  truthy (roomCode (the_socket sid m)) && truthy (userId (the_socket sid m)) = false ->
  run env envs (Handlers.send_message sid message messageType) (store, m)
  = mkRunState
      (store, emit_to [sid] (ErrorNotice "Failed to send message")
                (log (LogError "Error sending message:" NotInRoom) m))
      [] (Ret tt).
Proof.
  intros Hguard. apply (run_of_finished_start env envs _ (store, m)).
  unfold Handlers.send_message. cbn.
  destruct (roomCode (the_socket sid m)) as [room|] eqn:E1; [|done].
  destruct (userId (the_socket sid m)) as [uid|] eqn:E2; [|done].
  cbn. by rewrite Hguard.
Qed.

(** X1. A [send-message] event of a connection whose [socket.roomCode] or
    [socket.userId] is unset or empty executes no statement: the store and
    the sockets are unchanged, nothing is broadcast, and the one delivery
    is the error notice to the sender. *)
Theorem send_message_not_in_room sid message messageType env envs store m :
  truthy (roomCode (the_socket sid m)) && truthy (userId (the_socket sid m)) = false ->
  let r := run env envs (Handlers.send_message sid message messageType) (store, m) in
  finished (rest r) = true /\
  journal r = [] /\
  (after r).1 = store /\
  sockets (after r).2 = sockets m /\
  activeCalls (after r).2 = activeCalls m /\
  sent_by r (store, m) = [(sid, ErrorNotice "Failed to send message")] /\
  console (after r).2 =
    (console m ++ [LogError "Error sending message:" NotInRoom])%list.
Proof.
  intros Hguard r. subst r. rewrite send_message_rejected by done.
  cbn [after journal rest fst snd finished].
  repeat (split; [done|]). split; [|done].
  by apply sent_by_app.
Qed.

Lemma send_message_not_in_room_witness :
  truthy (roomCode (the_socket "A" lobby)) && truthy (userId (the_socket "A" lobby)) = false /\
  sent_by (run (at_time true 1 "") [at_time true 2 ""]
               (Handlers.send_message "A" "hi" None) (no_rows, lobby)) (no_rows, lobby)
  = [("A", ErrorNotice "Failed to send message")].
Proof.
  split; [reflexivity|].
  exact (proj1 (proj2 (proj2 (proj2 (proj2 (proj2
    (send_message_not_in_room "A" "hi" None (at_time true 1 "") [at_time true 2 ""]
       no_rows lobby eq_refl))))))).
Defined.

(** X2. The typing, signaling and call events of a connection whose
    [socket.roomCode] is unset or empty are ignored: no statement is
    executed and the database, the sockets, [activeCalls], the deliveries
    and the console all stay as they are. *)
Theorem event_without_room_ignored ev sid env envs store m :
  guarded_by_room ev = Some sid ->
  truthy (roomCode (the_socket sid m)) = false ->
  let r := run env envs (handler ev) (store, m) in
  finished (rest r) = true /\ journal r = [] /\ after r = (store, m).
Proof.
  intros Hev Hguard r.
  assert (Hr : r = mkRunState (store, m) [] (Ret tt)); [|by rewrite Hr].
  subst r. unfold run.
  assert (Hs : start env (handler ev) (store, m) = mkRunState (store, m) [] (Ret tt)).
  { destruct ev; try discriminate; injection Hev as ->;
      unfold start, handler; cbn; unfold if_roomCode;
      destruct (roomCode (the_socket sid m)) as [room|] eqn:E; cbn;
      rewrite ?Hguard; try done. }
  rewrite Hs. by apply steps_finished.
Qed.

Lemma event_without_room_ignored_witness :
  guarded_by_room (Offer "A" "sdp" "video") = Some "A" /\
  truthy (roomCode (the_socket "A" lobby)) = false /\
  after (run (at_time true 1 "") [at_time true 2 ""]
             (handler (Offer "A" "sdp" "video")) (no_rows, lobby)) = (no_rows, lobby).
Proof.
  split; [reflexivity|]. split; [reflexivity|].
  exact (proj2 (proj2 (event_without_room_ignored (Offer "A" "sdp" "video") "A"
                         (at_time true 1 "") [at_time true 2 ""] no_rows lobby
                         eq_refl eq_refl))).
Defined.

(** ** Relayed events *)

(** X3. The typing, answer and ICE-candidate events of a connection with
    an established presence touch neither the database nor the sockets nor
    [activeCalls]: each delivers its notice, carrying the sender's user id,
    to the connections of the room other than the sender, and to nobody
    else. *)
Theorem relay_to_others sid env envs store m room uid answer candidate :
  present sid room uid m ->
  let s := the_socket sid m in
  let audience := others sid (Some room) m in
  (forall c, c ∈ audience <-> c <> sid /\ c ∈ in_room room m) /\
  Forall (fun tp : Async unit * Outbound =>
            let r := run env envs tp.1 (store, m) in
            finished (rest r) = true /\ journal r = [] /\
            (after r).1 = store /\ sockets (after r).2 = sockets m /\
            activeCalls (after r).2 = activeCalls m /\
            console (after r).2 = console m /\
            outbox (after r).2 = (outbox m ++ map (fun c => (c, tp.2)) audience)%list)
         [(Handlers.typing_start sid, UserTypingStart (Some uid) (username s));
          (Handlers.typing_stop sid, UserTypingStop (Some uid));
          (Handlers.answer sid answer, AnswerOut answer (Some uid));
          (Handlers.ice_candidate sid candidate, IceCandidateOut candidate (Some uid))].
Proof.
  intros (s & Hs & Hroom & Huid & Hr & Hu & Hin) s' audience.
  split; [intros c; apply elem_of_others|].
  subst s' audience. rewrite (the_socket_lookup _ _ _ Hs).
  repeat apply List.Forall_cons; [..|apply List.Forall_nil]; cbn [fst snd].
  all: erewrite run_of_finished_start;
    [|cbn; unfold if_roomCode; rewrite (the_socket_lookup _ _ _ Hs), Hroom;
      rewrite truthy_Some by done; cbn; rewrite Huid; reflexivity].
  all: done.
Qed.

Lemma relay_to_others_witness :
  present "A" "abc" "u1" room_abc /\
  forall c, c ∈ others "A" (Some "abc") room_abc <-> c <> "A" /\ c ∈ in_room "abc" room_abc.
Proof.
  split; [exact present_room_abc|].
  exact (proj1 (relay_to_others "A" (at_time true 1 "") [] no_rows room_abc
                  "abc" "u1" "sdp" "ice" present_room_abc)).
Defined.

(** The run of an [offer] event of a connection in a room. *)
Lemma offer_recorded_and_relayed_aux sid offer callType env envs store m room uid :
  present sid room uid m ->
  let r := run env envs (Handlers.offer sid offer callType) (store, m) in
  (after r).1 = store /\ sockets (after r).2 = sockets m /\
  activeCalls (after r).2 = <[room := mkActiveCall callType (Some uid)]> (activeCalls m).
Proof.
  intros (s & Hs & Hroom & Huid & Hr & Hu & Hin) r. subst r.
  erewrite run_of_finished_start;
    [|cbn; unfold if_roomCode; rewrite (the_socket_lookup _ _ _ Hs), Hroom;
      rewrite truthy_Some by done; cbn; rewrite Huid; reflexivity].
  done.
Qed.

(** X4. An [offer] event of a connection with an established presence
    executes no statement.  It sets the room's entry of [activeCalls] to
    the offered call type and the sender's user id, whatever the entry was
    before; the entries of other rooms are untouched; and the offer, with
    the sender's id and username and the call type, is delivered to the
    other connections of the room. *)
Theorem offer_recorded_and_relayed sid offer callType env envs store m room uid :
  present sid room uid m ->
  let s := the_socket sid m in
  let r := run env envs (Handlers.offer sid offer callType) (store, m) in
  finished (rest r) = true /\ journal r = [] /\ (after r).1 = store /\
  sockets (after r).2 = sockets m /\
  activeCalls (after r).2 !! room = Some (mkActiveCall callType (Some uid)) /\
  (forall room', room' <> room ->
     activeCalls (after r).2 !! room' = activeCalls m !! room') /\
  outbox (after r).2 =
    (outbox m ++ map (fun c => (c, OfferOut offer (Some uid) (username s) callType))
                     (others sid (Some room) m))%list.
Proof.
  intros (s & Hs & Hroom & Huid & Hr & Hu & Hin) s' r.
  subst s' r. rewrite (the_socket_lookup _ _ _ Hs).
  erewrite run_of_finished_start;
    [|cbn; unfold if_roomCode; rewrite (the_socket_lookup _ _ _ Hs), Hroom;
      rewrite truthy_Some by done; cbn; rewrite Huid; reflexivity].
  cbn [after journal rest fst snd finished]. autorewrite with mem.
  repeat (split; [done|]).
  split; [apply lookup_insert_eq|]. split; [|done].
  intros room' Hne. by apply lookup_insert_ne.
Qed.

Lemma offer_recorded_and_relayed_witness :
  present "A" "abc" "u1" room_abc /\
  activeCalls (after (run (at_time true 1 "") []
                          (Handlers.offer "A" "sdp" "video") (no_rows, room_abc))).2
    !! "abc" = Some (mkActiveCall "video" (Some "u1")).
Proof.
  split; [exact present_room_abc|].
  exact (proj1 (proj2 (proj2 (proj2 (proj2
    (offer_recorded_and_relayed "A" "sdp" "video" (at_time true 1 "") [] no_rows
       room_abc "abc" "u1" present_room_abc)))))).
Defined.

(** What [end-call] does to [activeCalls], whether or not its statement
    succeeds. *)
Lemma end_call_tracker sid e0 e1 store m room :
  roomCode (the_socket sid m) = Some room -> room <> "" ->
  activeCalls (after (run e0 [e1] (Handlers.end_call sid) (store, m))).2
  = delete room (activeCalls m).
Proof.
  intros Hroom Hr.
  unfold run, start, Handlers.end_call. cbn. unfold if_roomCode. rewrite Hroom.
  rewrite truthy_Some by done. cbn.
  turn; rewrite steps_nil; reflexivity.
Qed.

(** X5. After an offer in a room, an [end-call] event of any connection of
    that room leaves [activeCalls] without an entry for the room, whether
    the update of the call table succeeds or is rejected, and with the
    entries of all other rooms as they were before the offer. *)
Theorem end_call_clears_offer sid sid' offer callType env envs e0 e1 store m
    room uid uid' :
  present sid room uid m ->
  present sid' room uid' m ->
  let r1 := run env envs (Handlers.offer sid offer callType) (store, m) in
  let r2 := run e0 [e1] (Handlers.end_call sid') (after r1) in
  activeCalls (after r1).2 !! room = Some (mkActiveCall callType (Some uid)) /\
  activeCalls (after r2).2 !! room = None /\
  activeCalls (after r2).2 = delete room (activeCalls m).
Proof.
  intros Hp (s' & Hs' & Hroom' & _ & Hr & _) r1 r2.
  pose proof (offer_recorded_and_relayed_aux sid offer callType env envs store m room uid Hp)
    as (Hstore & Hsock & Hcalls).
  fold r1 in Hstore, Hsock, Hcalls.
  assert (Hroom2 : roomCode (the_socket sid' (after r1).2) = Some room).
  { unfold the_socket. rewrite Hsock, Hs'. done. }
  subst r2. destruct (after r1) as [store1 m1] eqn:E. cbn [fst snd] in *.
  rewrite (end_call_tracker sid' e0 e1 store1 m1 room Hroom2 Hr).
  rewrite Hcalls. split; [apply lookup_insert_eq|].
  rewrite delete_insert_eq. split; [apply lookup_delete_eq | done].
Qed.

Lemma end_call_clears_offer_witness :
  present "A" "abc" "u1" room_abc /\ present "B" "abc" "u2" room_abc /\
  activeCalls (after (run (at_time true 3 "") [at_time false 4 ""] (Handlers.end_call "B")
                (after (run (at_time true 1 "") []
                            (Handlers.offer "A" "sdp" "video") (no_rows, room_abc))))).2
    !! "abc" = None.
Proof.
  assert (HB : present "B" "abc" "u2" room_abc).
  { eexists. split; [vm_compute; reflexivity|]. repeat split; try discriminate. }
  split; [exact present_room_abc|]. split; [exact HB|].
  exact (proj1 (proj2 (end_call_clears_offer "A" "B" "sdp" "video" (at_time true 1 "") []
                         (at_time true 3 "") (at_time false 4 "") no_rows room_abc
                         "abc" "u1" "u2" present_room_abc HB))).
Defined.

(** ** Call records *)

(** The run of a [call-started] event of a connection in a room. *)
Lemma call_started_run sid callType e0 e1 store m room uid :
  present sid room uid m ->
  let s := the_socket sid m in
  let r := run e0 [e1] (Handlers.call_started sid callType) (store, m) in
  finished (rest r) = true /\
  if env_ok e1 then
    (after r).1 =
      mkStore (rooms store) (users store) (messages store)
              (calls store ++ [mkCall (seq_calls store + 1) room callType (Some uid)
                                      (username s) "active" (env_now e1) None])
              (seq_messages store) (seq_calls store + 1) /\
    (after r).2 = m
  else
    (after r).1 = store /\
    (after r).2 = log (LogError "Error logging call:" SqliteFailure) m.
Proof.
  intros (s & Hs & Hroom & Huid & Hr & Hu & Hin) s' r. subst s'.
  on_run r. unfold run, start, Handlers.call_started. cbn.
  unfold if_roomCode. rewrite (the_socket_lookup _ _ _ Hs), Hroom.
  rewrite truthy_Some by done. cbn. rewrite Huid.
  turn; rewrite steps_nil; back; cbn;
    rewrite ?Heqb, ?(the_socket_lookup _ _ _ Hs); done.
Qed.

(** X6. A [call-started] event of a connection with an established
    presence emits nothing and leaves the sockets and [activeCalls] alone.
    When its insert succeeds, the call table gains one row at its end, with
    the next key of the sequence, the room, the given call type, the
    sender's user id and username, the status active, the time of the
    insert as [started_at] and no [ended_at]; every earlier row is
    unchanged.  When the insert is rejected, the store is unchanged and the
    error is written to the console. *)
Theorem call_started_persists sid callType e0 e1 store m room uid :
  present sid room uid m ->
  let s := the_socket sid m in
  let r := run e0 [e1] (Handlers.call_started sid callType) (store, m) in
  finished (rest r) = true /\
  sent_by r (store, m) = [] /\
  sockets (after r).2 = sockets m /\ activeCalls (after r).2 = activeCalls m /\
  users (after r).1 = users store /\ messages (after r).1 = messages store /\
  if env_ok e1 then
    calls (after r).1 =
      (calls store ++ [mkCall (seq_calls store + 1) room callType (Some uid)
                              (username s) "active" (env_now e1) None])%list /\
    console (after r).2 = console m
  else
    (after r).1 = store /\
    console (after r).2 =
      (console m ++ [LogError "Error logging call:" SqliteFailure])%list.
Proof.
  intros Hp s r.
  pose proof (call_started_run sid callType e0 e1 store m room uid Hp) as H.
  cbv zeta in H. fold s in H. fold r in H. clearbody r.
  destruct H as [Hfin H]. split; [done|].
  assert (Hm : outbox (after r).2 = (outbox m ++ [])%list /\
               sockets (after r).2 = sockets m /\ activeCalls (after r).2 = activeCalls m).
  { rewrite app_nil_r. destruct (env_ok e1); destruct H as [_ ->]; done. }
  destruct Hm as (Ho & Hs & Ha).
  split; [by apply sent_by_app|]. repeat (split; [done|]).
  destruct (env_ok e1); destruct H as [-> ->]; done.
Qed.

Lemma call_started_persists_witness :
  present "A" "abc" "u1" room_abc /\
  sent_by (run (at_time true 1 "") [at_time true 2 ""]
               (Handlers.call_started "A" "video") (no_rows, room_abc))
          (no_rows, room_abc) = [].
Proof.
  split; [exact present_room_abc|].
  exact (proj1 (proj2 (call_started_persists "A" "video" (at_time true 1 "")
                         (at_time true 2 "") no_rows room_abc "abc" "u1"
                         present_room_abc))).
Defined.

(** X7. A call recorded by [call-started] and then ended by an [end-call]
    event of a connection of the same room, both statements succeeding, is
    the last row of the call table with status ended, its [started_at] the
    time of the insert and its [ended_at] the time of the update. *)
Theorem started_call_is_ended sid sid' callType e0 e1 f0 f1 store m room uid uid' :
  present sid room uid m ->
  present sid' room uid' m ->
  env_ok e1 = true -> env_ok f1 = true ->
  let r1 := run e0 [e1] (Handlers.call_started sid callType) (store, m) in
  let r2 := run f0 [f1] (Handlers.end_call sid') (after r1) in
  calls (after r2).1 !! length (calls store) =
    Some (mkCall (seq_calls store + 1) room callType (Some uid)
                 (username (the_socket sid m)) "ended" (env_now e1) (Some (env_now f1))) /\
  length (calls (after r2).1) = S (length (calls store)).
Proof.
  intros Hp (s' & Hs' & Hroom' & Huid' & Hr & Hu' & Hin') Hok1 Hok2 r1 r2.
  pose proof (call_started_run sid callType e0 e1 store m room uid Hp) as H.
  cbv zeta in H. fold r1 in H. rewrite Hok1 in H. destruct H as (_ & Hst & Hm).
  subst r2. destruct (after r1) as [store1 m1]. cbn [fst snd] in Hst, Hm. subst m1.
  assert (Hcalls : calls (after (run f0 [f1] (Handlers.end_call sid') (store1, m))).1
                   = update_where (fun c => streq (call_room_code c) room
                                            && streq (call_status c) "active")
                                  (set_ended (env_now f1)) (calls store1)).
  { unfold run, start, Handlers.end_call. cbn. unfold if_roomCode.
    rewrite (the_socket_lookup _ _ _ Hs'), Hroom'. rewrite truthy_Some by done. cbn.
    rewrite steps_cons, steps_nil. unfold step. cbn. rewrite Hok2. reflexivity. }
  rewrite Hcalls, Hst. cbn [calls]. rewrite length_update_where, length_app. cbn.
  split; [|lia].
  rewrite lookup_update_where, lookup_app_r by lia.
  rewrite Nat.sub_diag. cbn. by rewrite !streq_refl.
Qed.

Lemma started_call_is_ended_witness :
  present "A" "abc" "u1" room_abc /\ present "B" "abc" "u2" room_abc /\
  length (calls (after (run (at_time true 3 "") [at_time true 4 ""] (Handlers.end_call "B")
                   (after (run (at_time true 1 "") [at_time true 2 ""]
                               (Handlers.call_started "A" "video")
                               (no_rows, room_abc))))).1) = 1%nat.
Proof.
  assert (HB : present "B" "abc" "u2" room_abc).
  { eexists. split; [vm_compute; reflexivity|]. repeat split; try discriminate. }
  split; [exact present_room_abc|]. split; [exact HB|].
  exact (proj2 (started_call_is_ended "A" "B" "video" (at_time true 1 "")
                  (at_time true 2 "") (at_time true 3 "") (at_time true 4 "")
                  no_rows room_abc "abc" "u1" "u2" present_room_abc HB eq_refl eq_refl)).
Defined.

(** ** Leaving *)

(** Who is in a room once a connection has been taken out of all rooms. *)
Lemma in_room_after_leave sid c room m s' :
  joined s' = ∅ ->
  c ∈ in_room room (set_sockets (<[sid := s']> (sockets m)) m) <->
  c <> sid /\ c ∈ in_room room m.
Proof.
  intros Hj. rewrite !elem_of_in_room, sockets_set_sockets. split.
  - intros (s & Hs & Hin). destruct (decide (c = sid)) as [-> | Hne].
    + rewrite lookup_insert_eq in Hs. injection Hs as <-. rewrite Hj in Hin. set_solver.
    + rewrite lookup_insert_ne in Hs by done. eauto.
  - intros (Hne & s & Hs & Hin). exists s. by rewrite lookup_insert_ne.
Qed.

(** X8. The disconnect of a connection with an established presence takes
    it out of every room and keeps its identity.  When both statements of
    the handler succeed, the [user-left] notice and then the
    [user-typing-stop] notice, with the user id of the connection, are
    delivered to the connections that remain in its room; when one of them
    is rejected, no notice is delivered and the error is written to the
    console.  In no case is anything delivered to the connection itself. *)
Theorem disconnect_notifies_room sid e0 e1 e2 store m room uid :
  present sid room uid m ->
  let r := run e0 [e1; e2] (Handlers.disconnect sid) (store, m) in
  let s := the_socket sid m in
  let M := (after r).2 in
  let audience := others sid (Some room) M in
  finished (rest r) = true /\
  (forall room', sid ∉ in_room room' M) /\
  (forall c room', c <> sid -> c ∈ in_room room' M <-> c ∈ in_room room' m) /\
  roomCode (the_socket sid M) = Some room /\ userId (the_socket sid M) = Some uid /\
  (forall c, c ∈ audience <-> c <> sid /\ c ∈ in_room room m) /\
  (forall ev, ~ In (sid, ev) (sent_by r (store, m))) /\
  if env_ok e1 && env_ok e2 then
    sent_by r (store, m) =
      (map (fun c => (c, UserLeft (Some uid) (username s))) audience ++
       map (fun c => (c, UserTypingStop (Some uid))) audience)%list
  else
    sent_by r (store, m) = [] /\
    console M = (console m ++ [LogError "Error handling disconnect:" SqliteFailure])%list.
Proof.
  intros (s & Hs & Hroom & Huid & Hr & Hu & Hin) r s' M audience.
  set (left := mkSocket ∅ (roomCode s) (userId s) (username s)).
  set (m1 := set_sockets (<[sid := left]> (sockets m)) m).
  assert (Hsock : finished (rest r) = true /\ sockets M = sockets m1 /\
            if env_ok e1 && env_ok e2 then
              outbox M = (outbox m ++
                (map (fun c => (c, UserLeft (Some uid) (username s))) (others sid (Some room) m1) ++
                 map (fun c => (c, UserTypingStop (Some uid))) (others sid (Some room) m1)))%list
            else outbox M = (outbox m ++ [])%list /\
                 console M = (console m ++ [LogError "Error handling disconnect:" SqliteFailure])%list).
  { subst M m1 left. on_run r. unfold run, start, Handlers.disconnect. cbn.
    rewrite the_socket_set_sockets, lookup_insert_eq. cbn.
    rewrite (the_socket_lookup _ _ _ Hs), Hroom, Huid, !truthy_Some by done. cbn.
    do 2 turn; rewrite steps_nil; back; cbn [after journal rest fst snd];
      rewrite ?Heqb, ?Heqb0; cbn [andb];
      rewrite ?the_socket_set_sockets, ?lookup_insert_eq; cbn;
      rewrite ?Hroom, ?Huid; autorewrite with mem; rewrite ?app_nil_r.
    all: split; [done|]; split; [done|]; try done.
    by rewrite <- app_assoc. }
  destruct Hsock as (Hfin & Hsock & Hout).
  assert (Hmem : forall c room', c ∈ in_room room' M <-> c <> sid /\ c ∈ in_room room' m).
  { intros c room'. rewrite <- (in_room_after_leave sid c room' m left eq_refl).
    rewrite !elem_of_in_room. fold m1. by rewrite Hsock. }
  assert (Haud : forall c, c ∈ audience <-> c <> sid /\ c ∈ in_room room m).
  { intros c. subst audience. rewrite elem_of_others, Hmem. tauto. }
  assert (Haud1 : others sid (Some room) m1 = audience) by (by apply others_sockets).
  assert (Hthe : the_socket sid M = left).
  { unfold the_socket. rewrite Hsock. subst m1. by rewrite sockets_set_sockets, lookup_insert_eq. }
  clearbody r.
  split; [done|].
  split. { intros room' H. apply Hmem in H. tauto. }
  split. { intros c room' Hne. rewrite Hmem. tauto. }
  rewrite Hthe. cbn. split; [done|]. split; [done|]. split; [done|].
  assert (Hsent : forall ev, ~ In (sid, ev) (sent_by r (store, m))).
  { intros ev. destruct (env_ok e1 && env_ok e2).
    - rewrite (sent_by_app r (store, m) _ Hout), Haud1, in_app_iff, !in_map_iff.
      intros [(c & Hc & Hi) | (c & Hc & Hi)]; injection Hc as Hc _;
        apply (proj2 (list_elem_of_In _ _)), Haud in Hi; tauto.
    - destruct Hout as [Hout _]. rewrite (sent_by_app r (store, m) _ Hout). intros []. }
  split; [done|].
  destruct (env_ok e1 && env_ok e2).
  - rewrite (sent_by_app r (store, m) _ Hout), Haud1. subst s'.
    by rewrite (the_socket_lookup _ _ _ Hs).
  - destruct Hout as [Hout Hc]. by rewrite (sent_by_app r (store, m) _ Hout).
Qed.

Lemma disconnect_notifies_room_witness :
  present "A" "abc" "u1" room_abc /\
  finished (rest (run (at_time true 40 "") [at_time true 41 ""; at_time true 42 ""]
                      (Handlers.disconnect "A") (alice_on_C, room_abc))) = true.
Proof.
  split; [exact present_room_abc|].
  exact (proj1 (disconnect_notifies_room "A" (at_time true 40 "") (at_time true 41 "")
                  (at_time true 42 "") alice_on_C room_abc "abc" "u1" present_room_abc)).
Defined.

(** ** What a join does for the room *)

(** Who is in a room once [join-room] has registered a connection. *)
Lemma in_room_registered sid rc uid un m M c room :
  sockets M = registered sid rc uid un m ->
  c ∈ in_room room M <->
  (c = sid /\ (room = rc \/ sid ∈ in_room room m)) \/ (c <> sid /\ c ∈ in_room room m).
Proof.
  intros HM. rewrite (elem_of_in_room c room M), HM. unfold registered, the_socket.
  destruct (decide (c = sid)) as [-> | Hne].
  - rewrite lookup_insert_eq. split.
    + intros (s & Hs & Hin). injection Hs as <-. cbn in Hin. left. split; [done|].
      apply elem_of_union in Hin as [Hin | Hin]; [left; set_solver|].
      right. apply (proj2 (elem_of_in_room sid room m)).
      destruct (sockets m !! sid) as [s0|] eqn:E; [eauto | set_solver].
    + intros [[_ H] | [H _]]; [|done]. eexists. split; [done|]. cbn.
      destruct H as [-> | H]; [set_solver|].
      apply elem_of_in_room in H as (s0 & Hs0 & Hin). rewrite Hs0. set_solver.
  - rewrite lookup_insert_ne by done. split.
    + intros H. right. split; [done|]. by apply elem_of_in_room.
    + intros [[H _] | [_ H]]; [done|]. by apply elem_of_in_room in H.
Qed.

(** The deliveries of a join that went through. *)
Lemma join_room_sent sid rc un e0 e1 e2 e3 e4 e5 e6 e7 store m rc' uid us ms cs :
  let r := run e0 [e1; e2; e3; e4; e5; e6; e7] (Handlers.join_room sid rc un) (store, m) in
  In (sid, RoomJoined rc' uid us ms cs) (sent_by r (store, m)) ->
  sockets (after r).2 = registered sid rc uid un m /\
  us = map member_full (select_room_users rc (after r).1) /\
  sent_by r (store, m) =
    (sid, RoomJoined rc' uid us ms cs)
    :: map (fun c => (c, UserJoined uid un
                           (map member_brief (select_room_users rc (after r).1))))
           (others sid (Some rc) (after r).2).
Proof.
  intros r Hin.
  pose proof (join_room_run sid rc un e0 e1 e2 e3 e4 e5 e6 e7 store m) as H.
  cbv zeta in H. fold r in H. clearbody r.
  destruct H as (_ & _ & _ & _ & _ & _ & [Hok | Hko]).
  - destruct Hok as (uid' & rp & st & _ & _ & _ & Hs & Ho).
    rewrite (sent_by_app r (store, m) _ Ho) in Hin |- *.
    destruct Hin as [Heq | Hin].
    + injection Heq as <- <- <- <- <-. split; [done|]. split; [done|].
      do 2 f_equal. apply others_sockets. by rewrite Hs.
    + apply in_map_iff in Hin as (c & Hc & _). discriminate.
  - destruct Hko as (before & q & e & _ & _ & Ho & _).
    rewrite (sent_by_app r (store, m) _ Ho) in Hin. destruct Hin as [Heq | []].
    discriminate.
Qed.

(** X9. A join that goes through makes two kinds of deliveries and no
    other: the snapshot, once, to the joining connection, and after it the
    [user-joined] notice to every other connection of the room, and only
    to those.  The notice carries the new member's id and username and the
    member list of the snapshot without the [lastSeen] fields. *)
Theorem join_notifies_others sid rc un e0 e1 e2 e3 e4 e5 e6 e7 store m
    rc' uid us ms cs :
  let r := run e0 [e1; e2; e3; e4; e5; e6; e7] (Handlers.join_room sid rc un) (store, m) in
  let audience := others sid (Some rc) (after r).2 in
  let brief := fun x => mkMember (member_id x) (member_username x) (member_isOnline x) None in
  In (sid, RoomJoined rc' uid us ms cs) (sent_by r (store, m)) ->
  sent_by r (store, m) =
    (sid, RoomJoined rc' uid us ms cs)
    :: map (fun c => (c, UserJoined uid un (map brief us))) audience /\
  (forall c, c ∈ audience <-> c <> sid /\ c ∈ in_room rc m) /\
  sid ∉ audience.
Proof.
  intros r audience brief Hin.
  apply join_room_sent in Hin as (Hs & Hus & Hsent). fold r in Hs, Hus, Hsent.
  fold audience in Hsent. clearbody r.
  assert (Haud : forall c, c ∈ audience <-> c <> sid /\ c ∈ in_room rc m).
  { intros c. subst audience. rewrite elem_of_others.
    rewrite (in_room_registered sid rc uid un m _ c rc Hs). tauto. }
  split; [|split; [done|]].
  - rewrite Hsent. do 3 f_equal. rewrite Hus, map_map. done.
  - intros H. apply Haud in H. tauto.
Qed.

Lemma join_notifies_others_witness :
  let r := run (at_time true 31 "") later_join
               (Handlers.join_room "A" "abc" "alice") (history_abc, lobby) in
  In ("A", snapshot_alice) (sent_by r (history_abc, lobby)) /\
  "A" ∉ others "A" (Some "abc") (after r).2.
Proof.
  cbv zeta.
  assert (H : In ("A", snapshot_alice)
                 (sent_by (run (at_time true 31 "") later_join
                               (Handlers.join_room "A" "abc" "alice") (history_abc, lobby))
                          (history_abc, lobby)))
    by (vm_compute; left; reflexivity).
  split; [exact H|].
  exact (proj2 (proj2 (join_notifies_others "A" "abc" "alice" _ _ _ _ _ _ _ _
                         history_abc lobby _ _ _ _ _ H))).
Defined.

(** X10. A join that goes through adds the room to the rooms of the
    connection and leaves none: the connection is afterwards in the joined
    room and in every room it was in before, while its identity names the
    joined room only; the rooms of all other connections are unchanged. *)
Theorem join_keeps_earlier_rooms sid rc un e0 e1 e2 e3 e4 e5 e6 e7 store m
    rc' uid us ms cs :
  let r := run e0 [e1; e2; e3; e4; e5; e6; e7] (Handlers.join_room sid rc un) (store, m) in
  let M := (after r).2 in
  In (sid, RoomJoined rc' uid us ms cs) (sent_by r (store, m)) ->
  (forall room, sid ∈ in_room room M <-> room = rc \/ sid ∈ in_room room m) /\
  (forall c room, c <> sid -> c ∈ in_room room M <-> c ∈ in_room room m) /\
  roomCode (the_socket sid M) = Some rc /\
  userId (the_socket sid M) = Some uid /\
  username (the_socket sid M) = Some un.
Proof.
  intros r M Hin.
  apply join_room_sent in Hin as (Hs & _ & _). fold r in Hs. fold M in Hs. clearbody r.
  split; [|split].
  - intros room. rewrite (in_room_registered sid rc uid un m M sid room Hs). tauto.
  - intros c room Hne. rewrite (in_room_registered sid rc uid un m M c room Hs). tauto.
  - unfold the_socket. by rewrite Hs, registered_lookup.
Qed.

Lemma join_keeps_earlier_rooms_witness :
  let r := run (at_time true 31 "") later_join
               (Handlers.join_room "A" "abc" "alice") (history_abc, lobby) in
  In ("A", snapshot_alice) (sent_by r (history_abc, lobby)) /\
  roomCode (the_socket "A" (after r).2) = Some "abc".
Proof.
  cbv zeta.
  assert (H : In ("A", snapshot_alice)
                 (sent_by (run (at_time true 31 "") later_join
                               (Handlers.join_room "A" "abc" "alice") (history_abc, lobby))
                          (history_abc, lobby)))
    by (vm_compute; left; reflexivity).
  split; [exact H|].
  exact (proj1 (proj2 (proj2 (join_keeps_earlier_rooms "A" "abc" "alice" _ _ _ _ _ _ _ _
                                history_abc lobby _ _ _ _ _ H)))).
Defined.




(** A connection registered under the empty room code does not pass the
    guard of [send-message]. *)
Lemma registered_empty_cannot_send sid uid un m M message messageType f0 fs store' :
  sockets M = registered sid "" uid un m ->
  let r2 := run f0 fs (Handlers.send_message sid message messageType) (store', M) in
  sid ∈ in_room "" M /\
  journal r2 = [] /\ (after r2).1 = store' /\
  sent_by r2 (store', M) = [(sid, ErrorNotice "Failed to send message")].
Proof.
  intros Hs r2.
  assert (Hroom : roomCode (the_socket sid M) = Some "").
  { unfold the_socket. by rewrite Hs, registered_lookup. }
  split.
  { rewrite (in_room_registered sid "" uid un m _ sid "" Hs). tauto. }
  subst r2. rewrite send_message_rejected by (by rewrite Hroom).
  cbn [after journal rest fst snd]. repeat (split; [done|]).
  by apply sent_by_app.
Qed.

(** X12. A join with the empty string as room code goes through like any
    other, but the connection is then treated as being in no room: a
    [send-message] event that follows, in whatever store, executes no
    statement and is answered with the error notice alone. *)
Theorem empty_room_code_cannot_send sid un e0 e1 e2 e3 e4 e5 e6 e7 store m
    rc' uid us ms cs message messageType f0 fs store' :
  let r := run e0 [e1; e2; e3; e4; e5; e6; e7] (Handlers.join_room sid "" un) (store, m) in
  In (sid, RoomJoined rc' uid us ms cs) (sent_by r (store, m)) ->
  let r2 := run f0 fs (Handlers.send_message sid message messageType)
                (store', (after r).2) in
  sid ∈ in_room "" (after r).2 /\
  journal r2 = [] /\ (after r2).1 = store' /\
  sent_by r2 (store', (after r).2) = [(sid, ErrorNotice "Failed to send message")].
Proof.
  intros r Hin.
  apply join_room_sent in Hin as (Hs & _ & _). fold r in Hs.
  exact (registered_empty_cannot_send sid uid un m (after r).2 message messageType
           f0 fs store' Hs).
Qed.

Lemma empty_room_code_cannot_send_witness :
  let r := run (at_time true 1 "") first_join
               (Handlers.join_room "A" "" "alice") (no_rows, lobby) in
  In ("A", RoomJoined "" "u1" [mkMember "u1" "alice" 1 (Some 5)] [] [])
     (sent_by r (no_rows, lobby)) /\
  journal (run (at_time true 9 "") [at_time true 10 ""]
               (Handlers.send_message "A" "hi" None) (no_rows, (after r).2)) = [].
Proof.
  cbv zeta.
  assert (H : In ("A", RoomJoined "" "u1" [mkMember "u1" "alice" 1 (Some 5)] [] [])
                 (sent_by (run (at_time true 1 "") first_join
                               (Handlers.join_room "A" "" "alice") (no_rows, lobby))
                          (no_rows, lobby)))
    by (vm_compute; left; reflexivity).
  split; [exact H|].
  exact (proj1 (proj2 (empty_room_code_cannot_send "A" "alice" _ _ _ _ _ _ _ _
                         no_rows lobby _ _ _ _ _ "hi" None (at_time true 9 "")
                         [at_time true 10 ""] no_rows H))).
Defined.

(** ** What holds along every history of the process *)

Lemma in_trace_cases sched s s' :
  In s' (trace sched s) ->
  s' = s \/ exists ea sched', sched = ea :: sched' /\ In s' (trace sched' (act s ea)).
Proof.
  destruct sched as [|ea sched']; cbn.
  - intros [<- | []]. by left.
  - intros [<- | H]; [by left|]. right. eauto.
Qed.

(** A property of the store that every statement keeps holds in every
    state of every history. *)
Lemma store_invariant (P : Store -> Prop) :
  (forall now q store, P store -> P (exec_query now q store).1) ->
  forall sched s s', P (sys_world s).1 -> In s' (trace sched s) -> P (sys_world s').1.
Proof.
  intros HP sched. induction sched as [|ea sched IH]; intros s s' Hs Hin.
  - destruct Hin as [<- | []]. done.
  - destruct Hin as [<- | Hin]; [done|]. apply (IH (act s ea)); [|done].
    destruct (act_store s ea) as [-> | [q ->]]; [done | by apply HP].
Qed.

(** A relation between stores that every statement respects relates the
    first store of a history to each later one. *)
Lemma store_progress (R : Store -> Store -> Prop) :
  (forall store, R store store) ->
  (forall a b c, R a b -> R b c -> R a c) ->
  (forall now q store, R store (exec_query now q store).1) ->
  forall sched s s', In s' (trace sched s) -> R (sys_world s).1 (sys_world s').1.
Proof.
  intros Hrefl Htrans HR sched. induction sched as [|ea sched IH]; intros s s' Hin.
  - destruct Hin as [<- | []]. done.
  - destruct Hin as [<- | Hin]; [done|].
    apply (Htrans _ (sys_world (act s ea)).1); [|by apply IH].
    destruct (act_store s ea) as [-> | [q ->]]; [done | by apply HR].
Qed.

(** X13. The uniqueness of user ids (the primary key of [users]) and of
    room codes (the UNIQUE constraint of [rooms]) holds in every state of
    every history of the process that starts from a store in which it
    holds, whatever events arrive, however handlers interleave and
    whichever statements fail. *)
Theorem constraints_hold_throughout sched s s' :
  store_wf (sys_world s).1 ->
  In s' (trace sched s) ->
  NoDup (map user_id (users (sys_world s').1)) /\
  NoDup (map room_code (rooms (sys_world s').1)).
Proof.
  intros Hwf Hin.
  exact (store_invariant store_wf (fun now q store => exec_query_wf now q store)
           sched s s' Hwf Hin).
Qed.

Lemma constraints_hold_throughout_witness :
  store_wf (sys_world empty_process).1 /\
  In (exec overlapping_joins empty_process) (trace overlapping_joins empty_process) /\
  NoDup (map room_code (rooms (sys_world (exec overlapping_joins empty_process)).1)).
Proof.
  assert (Hin : In (exec overlapping_joins empty_process)
                   (trace overlapping_joins empty_process)).
  { unfold overlapping_joins. cbn [trace exec fold_left]. do 8 right. left. reflexivity. }
  split; [exact no_rows_wf|]. split; [exact Hin|].
  exact (proj2 (constraints_hold_throughout overlapping_joins empty_process _
                  no_rows_wf Hin)).
Defined.

Lemma exec_query_rows_kept now q store :
  messages store `prefix_of` messages (exec_query now q store).1 /\
  rooms store `prefix_of` rooms (exec_query now q store).1 /\
  map call_id (calls store) `prefix_of` map call_id (calls (exec_query now q store).1).
Proof.
  destruct q; cbn; try done.
  - destruct (existsb _ _); cbn; [done|]. repeat split; try done. by apply prefix_app_r.
  - by destruct (existsb _ _).
  - repeat split; try done. by apply prefix_app_r.
  - repeat split; try done. by rewrite map_update_where.
  - repeat split; try done. rewrite map_app. by apply prefix_app_r.
Qed.

(** X14. No message row, no room row and no call row is ever removed, and
    message and room rows are never changed: in every history of the
    process, the message table and the room table of an earlier state are
    initial segments of those of every later state, and so are the keys of
    the call table. *)
Theorem rows_are_never_removed sched s s' :
  In s' (trace sched s) ->
  messages (sys_world s).1 `prefix_of` messages (sys_world s').1 /\
  rooms (sys_world s).1 `prefix_of` rooms (sys_world s').1 /\
  map call_id (calls (sys_world s).1) `prefix_of` map call_id (calls (sys_world s').1).
Proof.
  apply (store_progress
           (fun a b => messages a `prefix_of` messages b /\
                       rooms a `prefix_of` rooms b /\
                       map call_id (calls a) `prefix_of` map call_id (calls b))).
  - done.
  - intros a b c (H1 & H2 & H3) (H4 & H5 & H6).
    repeat split; by etrans.
  - apply exec_query_rows_kept.
Qed.

Lemma ascending_NoDup (l : list Z) : StronglySorted Z.lt l -> NoDup l.
Proof.
  induction 1 as [|x l Hl IH Hx]; [apply NoDup_nil_2|].
  apply NoDup_cons_2; [|done]. intros Hin.
  rewrite Forall_forall in Hx. specialize (Hx x Hin). lia.
Qed.

Lemma Forall_le_lt_snoc (l : list Z) (k : Z) :
  StronglySorted Z.lt l -> Forall (fun x => x <= k) l ->
  StronglySorted Z.lt (l ++ [k + 1]).
Proof.
  intros Hs Hle. apply StronglySorted_app_2; [|done|repeat constructor].
  intros x y Hx Hy. apply list_elem_of_singleton in Hy as ->.
  rewrite Forall_forall in Hle. specialize (Hle x Hx). lia.
Qed.

Lemma exec_query_keys now q store :
  keys_in_sequence store -> keys_in_sequence (exec_query now q store).1.
Proof.
  intros [[Hm1 Hm2] [Hc1 Hc2]]. unfold keys_in_sequence.
  destruct q; cbn; try done.
  - by destruct (existsb _ _).
  - by destruct (existsb _ _).
  - split; [|done]. rewrite map_app. cbn. split.
    + apply Forall_le_lt_snoc; [done|]. by apply Forall_fmap.
    + apply Forall_app. split; [|by repeat constructor].
      eapply Forall_impl; [done|]. cbn. intros. lia.
  - split; [done|]. rewrite map_update_where by done. split; [done|].
    unfold update_where. apply Forall_forall. intros c Hc.
    apply list_elem_of_In, in_map_iff in Hc as (c0 & <- & Hc0).
    rewrite Forall_forall in Hc2. apply list_elem_of_In, Hc2 in Hc0.
    by destruct (_ && _).
  - split; [done|]. rewrite map_app. cbn. split.
    + apply Forall_le_lt_snoc; [done|]. by apply Forall_fmap.
    + apply Forall_app. split; [|by repeat constructor].
      eapply Forall_impl; [done|]. cbn. intros. lia.
Qed.

(** X15. The keys the store assigns to messages and to calls are strictly
    ascending in table order, hence unique, and never above the counter of
    their table; this holds in every state of every history of the process
    that starts from a store in which it holds.  A message inserted later
    therefore has a greater id than every message stored before. *)
Theorem keys_ascend_throughout sched s s' :
  keys_in_sequence (sys_world s).1 ->
  In s' (trace sched s) ->
  keys_in_sequence (sys_world s').1 /\
  NoDup (map msg_id (messages (sys_world s').1)) /\
  NoDup (map call_id (calls (sys_world s').1)).
Proof.
  intros Hk Hin.
  pose proof (store_invariant keys_in_sequence exec_query_keys sched s s' Hk Hin) as H.
  split; [done|]. destruct H as [[Hm _] [Hc _]].
  split; by apply ascending_NoDup.
Qed.

Lemma rows_are_never_removed_witness :
  In (exec overlapping_joins empty_process) (trace overlapping_joins empty_process) /\
  rooms (sys_world empty_process).1
    `prefix_of` rooms (sys_world (exec overlapping_joins empty_process)).1.
Proof.
  assert (Hin : In (exec overlapping_joins empty_process)
                   (trace overlapping_joins empty_process)).
  { unfold overlapping_joins. cbn [trace exec fold_left]. do 8 right. left. reflexivity. }
  split; [exact Hin|].
  exact (proj1 (proj2 (rows_are_never_removed overlapping_joins empty_process _ Hin))).
Defined.

Lemma keys_ascend_throughout_witness :
  keys_in_sequence (sys_world empty_process).1 /\
  In (exec overlapping_joins empty_process) (trace overlapping_joins empty_process) /\
  NoDup (map msg_id (messages (sys_world (exec overlapping_joins empty_process)).1)).
Proof.
  assert (Hk : keys_in_sequence (sys_world empty_process).1).
  { repeat split; constructor. }
  assert (Hin : In (exec overlapping_joins empty_process)
                   (trace overlapping_joins empty_process)).
  { unfold overlapping_joins. cbn [trace exec fold_left]. do 8 right. left. reflexivity. }
  split; [exact Hk|]. split; [exact Hin|].
  exact (proj1 (proj2 (keys_ascend_throughout overlapping_joins empty_process _ Hk Hin))).
Defined.

(** *** User rows go only when the sweeper runs *)

Lemma sync_never_deletes {A} env (t : Async A) m :
  never_deletes t -> never_deletes (sync env t m).2.
Proof.
  revert m. induction t as [| |k IH|f k IH|k IH|k IH|q k IHk h IHh]; intros m H; cbn in *;
    try done.
  - by apply IH.
  - by apply IH.
  - by apply IH.
  - by apply IH.
Qed.

Lemma exec_query_user_ids now q store :
  q <> DeleteInactiveUsers ->
  map user_id (users store) `prefix_of` map user_id (users (exec_query now q store).1).
Proof.
  intros Hq. destruct q; cbn; try done.
  - by destruct (existsb _ _).
  - by rewrite map_update_where.
  - destruct (existsb _ _); cbn; [done|]. rewrite map_app. by apply prefix_app_r.
  - by rewrite map_update_where.
Qed.

Lemma step_never_deletes env (r : Run unit) :
  never_deletes (rest r) ->
  never_deletes (rest (step env r)) /\
  map user_id (users (after r).1) `prefix_of` map user_id (users (after (step env r)).1).
Proof.
  intros H. unfold step.
  assert (Hset : never_deletes (settle env (rest r) (after r).1).2 /\
                 map user_id (users (after r).1)
                   `prefix_of` map user_id (users (settle env (rest r) (after r).1).1.1)).
  { destruct (rest r) as [| | | | | |q k h]; cbn in *; try done.
    destruct H as (Hq & Hk & Hh). destruct (env_ok env); cbn; [|by split].
    pose proof (exec_query_user_ids (env_now env) q (after r).1 Hq) as Hp.
    destruct (exec_query (env_now env) q (after r).1) as [store' [e | a]]; cbn in *;
      by split. }
  destruct (settle env (rest r) (after r).1) as [[store' ran] t']. cbn in Hset.
  destruct Hset as [Ht Hp].
  pose proof (sync_never_deletes env t' (after r).2 Ht) as Hs.
  destruct (sync env t' (after r).2) as [m' t'']. done.
Qed.

Lemma handler_never_deletes ev : ev <> CleanupTick -> never_deletes (handler ev).
Proof.
  intros Hev. destruct ev; try done; cbn; unfold if_roomCode, when;
    repeat first
      [ done
      | progress intros
      | progress cbn
      | split
      | match goal with
        | |- context [match ?x with _ => _ end] => destruct x
        end ].
Qed.

Lemma act_never_deletes s ea :
  Forall never_deletes (waiting s) ->
  ea.2 <> Arrive CleanupTick ->
  Forall never_deletes (waiting (act s ea)) /\
  map user_id (users (sys_world s).1)
    `prefix_of` map user_id (users (sys_world (act s ea)).1).
Proof.
  intros Hw Hea. unfold act. destruct ea.2 as [ev | i] eqn:E.
  - assert (Hev : ev <> CleanupTick) by congruence.
    pose proof (sync_never_deletes ea.1 (handler ev) (sys_world s).2
                  (handler_never_deletes ev Hev)) as Hs.
    unfold start. destruct (sync ea.1 (handler ev) (sys_world s).2) as [m' t']. cbn in *.
    split; [|done]. destruct (finished t'); [done|].
    apply Forall_app. split; [done | by repeat constructor].
  - destruct (waiting s !! i) as [t|] eqn:Ei; [|done].
    assert (Ht : never_deletes t).
    { rewrite Forall_forall in Hw. apply Hw. by eapply list_elem_of_lookup_2. }
    destruct (step_never_deletes ea.1 (mkRunState (sys_world s) [] t) Ht) as [Hr Hp].
    cbn. split; [|done]. unfold park. destruct (finished _).
    + apply Forall_delete. done.
    + apply Forall_insert; done.
Qed.

(** X16. A user row is removed by the sweeper and by nothing else: in a
    history of the process in which no sweeper tick arrives and no handler
    waiting at the start awaits the sweeper's delete, the user ids of an
    earlier state are an initial segment of those of every later state,
    whatever other events arrive (disconnects among them). *)
Theorem only_the_sweeper_removes_users sched s s' :
  Forall never_deletes (waiting s) ->
  Forall (fun ea : Env * Action => ea.2 <> Arrive CleanupTick) sched ->
  In s' (trace sched s) ->
  map user_id (users (sys_world s).1) `prefix_of` map user_id (users (sys_world s').1).
Proof.
  revert s. induction sched as [|ea sched IH]; intros s Hw Hsched Hin.
  - destruct Hin as [<- | []]. done.
  - destruct Hin as [<- | Hin]; [done|].
    inversion_clear Hsched as [|?? Hea Hsched'].
    destruct (act_never_deletes s ea Hw Hea) as [Hw' Hp].
    etrans; [exact Hp|]. by apply IH.
Qed.

Lemma only_the_sweeper_removes_users_witness :
  Forall never_deletes (waiting empty_process) /\
  Forall (fun ea : Env * Action => ea.2 <> Arrive CleanupTick) overlapping_joins /\
  In (exec overlapping_joins empty_process) (trace overlapping_joins empty_process) /\
  map user_id (users (sys_world empty_process).1)
    `prefix_of` map user_id (users (sys_world (exec overlapping_joins empty_process)).1).
Proof.
  assert (Hw : Forall never_deletes (waiting empty_process)) by constructor.
  assert (Hs : Forall (fun ea : Env * Action => ea.2 <> Arrive CleanupTick)
                      overlapping_joins)
    by (repeat constructor; discriminate).
  assert (Hin : In (exec overlapping_joins empty_process)
                   (trace overlapping_joins empty_process)).
  { unfold overlapping_joins. cbn [trace exec fold_left]. do 8 right. left. reflexivity. }
  split; [exact Hw|]. split; [exact Hs|]. split; [exact Hin|].
  exact (only_the_sweeper_removes_users overlapping_joins empty_process _ Hw Hs Hin).
Defined.

(** ** From a sent message to a later snapshot *)

(** The message row a [send-message] event stores. *)
Lemma send_message_stored sid message messageType env env1 store m room uid :
  present sid room uid m ->
  env_ok env1 = true ->
  messages (after (run env [env1] (Handlers.send_message sid message messageType)
                       (store, m))).1
  = (messages store ++
       [mkMessage (seq_messages store + 1) room uid (username (the_socket sid m)) message
                  (default "text" messageType) (env_now env1)])%list.
Proof.
  intros (s & Hs & Hroom & Huid & Hr & Hu & Hin) Hok.
  unfold run, start, Handlers.send_message. cbn.
  rewrite (the_socket_lookup _ _ _ Hs), Hroom, Huid.
  rewrite !truthy_Some by done. cbn.
  rewrite steps_cons, steps_nil. unfold step. cbn. by rewrite Hok.
Qed.

(** The history read for a room has a row for each message of the room. *)
Lemma in_select_room_messages msg rc store :
  In msg (messages store) -> msg_room_code msg = rc ->
  exists row, In row (select_room_messages rc store) /\
              message_of_row row = message_columns msg.
Proof.
  intros Hmsg Hrc.
  assert (Hrow : exists row, In row (left_join_users (users store) msg) /\
                             message_of_row row = message_columns msg).
  { unfold left_join_users.
    destruct (filter _ (users store)) as [|x l]; eexists; (split; [by left|]);
      by rewrite message_row_eq. }
  destruct Hrow as (row & Hrow & Hcols). exists row. split; [|done].
  unfold select_room_messages.
  apply list_elem_of_In. rewrite merge_sort_Permutation. apply list_elem_of_In.
  apply in_flat_map. exists msg. split; [|done].
  apply list_elem_of_In, list_elem_of_filter. split; [done | by apply list_elem_of_In].
Qed.

(** X17. A message that [send-message] has stored is in the history of
    every snapshot a later join of its room emits, whatever statements
    execute in between: with the key the store assigned, the sender's user
    id, the text, the message type ("text" when the event gave none) and
    the store time of the insert. *)
Theorem sent_message_in_later_snapshot
    sid message messageType env env1 store m room uid between
    sid' un f0 f1 f2 f3 f4 f5 f6 f7 m' rc' uid' us ms cs :
  present sid room uid m ->
  env_ok env1 = true ->
  let r1 := run env [env1] (Handlers.send_message sid message messageType) (store, m) in
  let store2 := exec_all between (after r1).1 in
  let r2 := run f0 [f1; f2; f3; f4; f5; f6; f7]
                (Handlers.join_room sid' room un) (store2, m') in
  In (sid', RoomJoined rc' uid' us ms cs) (sent_by r2 (store2, m')) ->
  exists row,
    In row ms /\
    mr_id row = seq_messages store + 1 /\ mr_room_code row = room /\
    mr_user_id row = uid /\ mr_message row = message /\
    mr_message_type row = default "text" messageType /\
    mr_created_at row = env_now env1.
Proof.
  intros Hp Hok r1 store2 r2 Hin.
  pose proof (send_message_stored sid message messageType env env1 store m room uid Hp Hok)
    as Hstored.
  fold r1 in Hstored.
  set (msg := mkMessage (seq_messages store + 1) room uid (username (the_socket sid m))
                        message (default "text" messageType) (env_now env1)) in *.
  assert (Hmsg : In msg (messages store2)).
  { apply exec_all_keeps_message. rewrite Hstored. apply in_or_app. right. by left. }
  apply join_room_snapshot in Hin as (_ & _ & -> & _ & Hm2 & _).
  fold r2 in Hm2 |- *. clearbody r2 store2 r1.
  rewrite <- Hm2 in Hmsg.
  destruct (in_select_room_messages msg room _ Hmsg eq_refl) as (row & Hrow & Hcols).
  exists row. split; [done|]. unfold message_of_row, message_columns in Hcols.
  injection Hcols as -> -> -> -> -> ->. done.
Qed.

Lemma sent_message_in_later_snapshot_witness :
  let r1 := run (at_time true 1 "") [at_time true 2 ""]
                (Handlers.send_message "A" "hi" None) (room_exists, room_abc) in
  let r2 := run (at_time true 31 "") later_join
                (Handlers.join_room "B" "abc" "bob") (exec_all [] (after r1).1, room_abc) in
  present "A" "abc" "u1" room_abc /\
  In ("B", RoomJoined "abc" "u9" [mkMember "u9" "bob" 1 (Some 34)]
                      [mkMessageRow 1 "abc" "u1" "hi" "text" 2 None] [])
     (sent_by r2 (exec_all [] (after r1).1, room_abc)) /\
  exists row, In row [mkMessageRow 1 "abc" "u1" "hi" "text" 2 None] /\
    mr_id row = seq_messages room_exists + 1 /\ mr_room_code row = "abc" /\
    mr_user_id row = "u1" /\ mr_message row = "hi" /\
    mr_message_type row = default "text" None /\ mr_created_at row = 2.
Proof.
  cbv zeta.
  assert (H : In ("B", RoomJoined "abc" "u9" [mkMember "u9" "bob" 1 (Some 34)]
                      [mkMessageRow 1 "abc" "u1" "hi" "text" 2 None] [])
     (sent_by (run (at_time true 31 "") later_join (Handlers.join_room "B" "abc" "bob")
                 (exec_all [] (after (run (at_time true 1 "") [at_time true 2 ""]
                                 (Handlers.send_message "A" "hi" None)
                                 (room_exists, room_abc))).1, room_abc))
              (exec_all [] (after (run (at_time true 1 "") [at_time true 2 ""]
                                 (Handlers.send_message "A" "hi" None)
                                 (room_exists, room_abc))).1, room_abc)))
    by (vm_compute; left; reflexivity).
  split; [exact present_room_abc|]. split; [exact H|].
  exact (sent_message_in_later_snapshot "A" "hi" None (at_time true 1 "")
           (at_time true 2 "") room_exists room_abc "abc" "u1" [] "B" "bob"
           _ _ _ _ _ _ _ _ room_abc _ _ _ _ _ present_room_abc eq_refl H).
Defined.

(** ** More on the sweeper *)

(** A successful run of the sweeper, with what it writes to the console. *)
Lemma cleanup_success e0 e1 store m :
  env_ok e1 = true ->
  let n := count_where (inactive (env_now e1)) (users store) in
  after (run e0 [e1] Handlers.cleanup (store, m))
  = (set_users (List.filter (fun u => negb (inactive (env_now e1) u)) (users store)) store,
     if 0 <? n then log (LogCleaned n) m else m).
Proof.
  intros Hok n. unfold run, start, Handlers.cleanup. cbn.
  rewrite steps_cons, steps_nil. unfold step. cbn. rewrite Hok. cbn.
  fold n. by destruct (0 <? n).
Qed.

Lemma filter_survivors (now now' : Z) (l : list User) :
  now' <= now ->
  List.filter (fun u => negb (inactive now' u))
              (List.filter (fun u => negb (inactive now u)) l)
  = List.filter (fun u => negb (inactive now u)) l.
Proof.
  intros Hle. induction l as [|u l IH]; [done|]. cbn.
  destruct (inactive now u) eqn:E; cbn; [done|].
  assert (E' : inactive now' u = false).
  { apply not_true_iff_false. rewrite inactive_spec.
    apply not_true_iff_false in E. rewrite inactive_spec in E. lia. }
  rewrite E'. cbn. by rewrite IH.
Qed.

Lemma count_survivors (now now' : Z) (l : list User) :
  now' <= now ->
  count_where (inactive now') (List.filter (fun u => negb (inactive now u)) l) = 0.
Proof.
  intros Hle. unfold count_where. induction l as [|u l IH]; [done|]. cbn.
  destruct (inactive now u) eqn:E; cbn; [done|].
  assert (E' : inactive now' u = false).
  { apply not_true_iff_false. rewrite inactive_spec.
    apply not_true_iff_false in E. rewrite inactive_spec in E. lia. }
  by rewrite E'.
Qed.

Lemma count_removed (p : User -> bool) (l : list User) :
  count_where p l = Z.of_nat (length l) - Z.of_nat (length (List.filter (fun u => negb (p u)) l)).
Proof.
  unfold count_where. induction l as [|u l IH]; [done|]. cbn.
  destruct (p u); cbn; lia.
Qed.

(** X18. A run of the sweeper whose delete succeeds writes the number of
    rows it removed to the console if that number is positive, and nothing
    otherwise.  A second successful run for a moment that is not later
    removes nothing more and writes nothing: sweeping twice is sweeping
    once. *)
Theorem sweeper_reports_and_settles e0 e1 f0 f1 store m :
  env_ok e1 = true -> env_ok f1 = true -> env_now f1 <= env_now e1 ->
  let r1 := run e0 [e1] Handlers.cleanup (store, m) in
  let r2 := run f0 [f1] Handlers.cleanup (after r1) in
  let removed := Z.of_nat (length (users store))
                 - Z.of_nat (length (users (after r1).1)) in
  console (after r1).2 =
    (console m ++ if 0 <? removed then [LogCleaned removed] else [])%list /\
  after r2 = after r1.
Proof.
  intros Hok1 Hok2 Hle r1 r2 removed.
  pose proof (cleanup_success e0 e1 store m Hok1) as H1. cbv zeta in H1. fold r1 in H1.
  assert (Hrem : removed = count_where (inactive (env_now e1)) (users store)).
  { subst removed. rewrite H1. cbn. by rewrite count_removed. }
  rewrite <- Hrem in H1. split.
  - rewrite H1. cbn. destruct (0 <? removed); [done | by rewrite app_nil_r].
  - subst r2. rewrite H1. rewrite (cleanup_success f0 f1 _ _ Hok2). cbn.
    rewrite count_survivors, filter_survivors by done. done.
Qed.

Lemma sweeper_reports_and_settles_witness :
  env_now (at_time true 5001 "") <= env_now (at_time true 5001 "") /\
  console (after (run (at_time true 5000 "") [at_time true 5001 ""] Handlers.cleanup
                      (history_abc, lobby))).2
  = [LogCleaned 2].
Proof.
  split; [cbn; lia|].
  exact (proj1 (sweeper_reports_and_settles (at_time true 5000 "") (at_time true 5001 "")
                  (at_time true 5000 "") (at_time true 5001 "") history_abc lobby
                  eq_refl eq_refl (Z.le_refl _))).
Defined.

(** ** One row per room and username *)

Lemma NoDup_map_snoc {A B} (k : A -> B) (l : list A) (x : A) :
  NoDup (map k l) -> k x ∉ map k l -> NoDup (map k (l ++ [x])).
Proof.
  intros Hl Hx. rewrite map_app. apply NoDup_app. split; [done|].
  split; [|apply NoDup_singleton].
  intros y Hy Hy'. apply list_elem_of_singleton in Hy'. by subst.
Qed.

(** What an uninterrupted run of [join-room] does to the user table,
    whether it goes through or aborts. *)
Lemma join_room_users sid rc un e0 e1 e2 e3 e4 e5 e6 e7 store m :
  let S := (after (run e0 [e1; e2; e3; e4; e5; e6; e7]
                       (Handlers.join_room sid rc un) (store, m))).1 in
  users S = users store \/
  (exists u now,
     find_user rc un store = Some u /\
     users S = update_where (fun v => streq (user_id v) (user_id u))
                            (set_online sid now) (users store)) \/
  (exists uid now,
     find_user rc un store = None /\
     users S = (users store ++ [mkUser uid rc un sid now 1 now])%list).
Proof.
  intros S. subst S.
  set (r := run _ _ _ _). on_run r.
  unfold run, start, Handlers.join_room. cbn.
  do 7 turn.
  all: rewrite steps_nil; back; cbn [after journal rest fst snd users set_users set_rooms].
  all: unfold find_user.
  all: first [ left; reflexivity
             | right; left; eexists _, _; split; [eassumption | reflexivity]
             | right; right; eexists _, _; split; [eassumption | reflexivity] ].
Qed.

(** X19. A join that nothing interrupts keeps the user table free of two
    rows with the same room code and username, whether it goes through or
    aborts: it writes to the row it found for the pair, or adds a row for a
    pair it did not find.  (The schema itself has no such constraint.) *)
Theorem join_keeps_names_unique sid rc un e0 e1 e2 e3 e4 e5 e6 e7 store m :
  names_unique store ->
  names_unique (after (run e0 [e1; e2; e3; e4; e5; e6; e7]
                           (Handlers.join_room sid rc un) (store, m))).1.
Proof.
  intros Hu. unfold names_unique in *.
  destruct (join_room_users sid rc un e0 e1 e2 e3 e4 e5 e6 e7 store m)
    as [-> | [(u & now & _ & ->) | (uid & now & Hnone & ->)]].
  - done.
  - by rewrite map_update_where.
  - apply NoDup_map_snoc; [done|]. cbn. intros Hin.
    apply list_elem_of_In, in_map_iff in Hin as (x & Hx & Hin).
    injection Hx as Hr Hn. unfold find_user in Hnone.
    pose proof (find_none _ _ Hnone x Hin) as Hf. cbn in Hf.
    rewrite Hr, Hn, !streq_refl in Hf. discriminate.
Qed.

Lemma join_keeps_names_unique_witness :
  names_unique history_abc /\
  names_unique (after (run (at_time true 31 "") later_join
                           (Handlers.join_room "A" "abc" "alice") (history_abc, lobby))).1.
Proof.
  assert (H : names_unique history_abc).
  { unfold names_unique. cbn.
    repeat (apply NoDup_cons_2; [set_solver|]). apply NoDup_nil_2. }
  split; [exact H|].
  exact (join_keeps_names_unique "A" "abc" "alice" (at_time true 31 "")
           _ _ _ _ _ _ _ history_abc lobby H).
Defined.
